(** * Backtest engine of [app.py]: strategy, buy-and-hold and DCA curves

    The script computes, on a one-year window of a price table:
    - a 0/1 position signal (line 44) and its transition series (line 45);
    - the capital of the strategy, day by day (lines 48-63);
    - the buy-and-hold and the monthly DCA capital (lines 64-75);
    - three total-return percentages (lines 78-80).

    Numbers in the script are numpy float64 values.  The model is written
    once, over an interface [Arith] of the arithmetic the script uses, and
    is run at two instances:
    - [binary64]: Rocq's primitive IEEE-754 binary64 floats, the arithmetic
      the script really runs on (used to evaluate concrete runs bit for bit);
    - [exact]: the rationals [Q], i.e. the same computation without rounding,
      NaN or infinities, in which the algebraic statements are proved.
      In [Q] a division by zero yields 0 where numpy yields inf or NaN, so
      the exact instance follows the script on non-zero prices only.

    Missing values of a pandas column (NaN produced by [shift], [diff],
    [pct_change], [rolling]) are [None] in a column of type [list (option _)].
    Python exceptions are the left component of [result].

    [fill_method], the default of pandas' [pct_change], fills missing values
    forward before the division up to pandas 2 ([pad]) and leaves them as
    they are from pandas 3.  The script pins no version, so the default is a
    parameter [pad] of the model, at line 35 and at line 48 alike. *)

From Stdlib Require Import ZArith QArith Qpower List Bool Lia Lqa Floats.
Import ListNotations.

Set Implicit Arguments.
Local Open Scope Z_scope.

(** ** Arithmetic interface *)

Class Arith (num : Type) : Type := {
  lit   : Q -> num;              (* a numeric literal or an int used as a float *)
  add   : num -> num -> num;
  sub   : num -> num -> num;
  mul   : num -> num -> num;
  div   : num -> num -> num;
  ltb   : num -> num -> bool;    (* x < y, False as soon as one side is NaN *)
  isnan : num -> bool
}.

Definition float_of_Z (z : Z) : float :=
  match z with
  | Z0 => PrimFloat.of_uint63 (Uint63.of_Z 0)
  | Zpos _ => PrimFloat.of_uint63 (Uint63.of_Z z)
  | Zneg p => PrimFloat.opp (PrimFloat.of_uint63 (Uint63.of_Z (Zpos p)))
  end.

#[global] Instance binary64 : Arith float := {|
  lit q := PrimFloat.div (float_of_Z (Qnum q)) (float_of_Z (Zpos (Qden q)));
  add := PrimFloat.add;
  sub := PrimFloat.sub;
  mul := PrimFloat.mul;
  div := PrimFloat.div;
  ltb := PrimFloat.ltb;
  isnan := PrimFloat.is_nan
|}.

#[global] Instance exact : Arith Q := {|
  lit q := q;
  add := Qplus;
  sub := Qminus;
  mul := Qmult;
  div := Qdiv;
  ltb x y := negb (Qle_bool y x);
  isnan _ := false
|}.

(** ** Exceptions *)

Inductive exn : Type := IndexError.

Definition result (A : Type) : Type := (exn + A)%type.

Definition ret {A} (a : A) : result A := inr a.

Definition bind {A B} (c : result A) (k : A -> result B) : result B :=
  match c with
  | inl e => inl e
  | inr a => k a
  end.

Notation "x <- c ;; k" := (bind c (fun x => k))
  (at level 61, c at next level, right associativity).

(** [l[i]] for a list or a numpy array and an index [i >= 0]. *)
Definition getitem {A} (l : list A) (i : nat) : result A :=
  match nth_error l i with
  | Some a => ret a
  | None => inl IndexError
  end.

(** [s.iloc[-1]]. *)
Definition iloc_last {A} (l : list A) : result A :=
  match l with
  | [] => inl IndexError
  | _ :: _ => getitem l (length l - 1)
  end.

(** [for x in xs: st = f st x], stopping at the first exception. *)
Fixpoint foldM {S I} (f : S -> I -> result S) (xs : list I) (st : S) : result S :=
  match xs with
  | [] => ret st
  | x :: rest => st' <- f st x ;; foldM f rest st'
  end.

(** ** pandas column operations *)

Section Columns.
Context {A : Type}.

(** [s.fillna(v)]: a missing entry, or a float NaN, becomes [v]. *)
Definition fillna (nan : A -> bool) (v : A) (s : list (option A)) : list A :=
  map (fun o => match o with
                | Some x => if nan x then v else x
                | None => v
                end) s.

(** [f(s, s.shift(1))] entry by entry: no value at the first row. *)
Fixpoint with_previous (f : A -> A -> A) (prev : A) (s : list A) : list (option A) :=
  match s with
  | [] => []
  | x :: rest => Some (f x prev) :: with_previous f x rest
  end.

Definition shifted (f : A -> A -> A) (s : list A) : list (option A) :=
  match s with
  | [] => []
  | x :: rest => None :: with_previous f x rest
  end.
End Columns.

(** [s.diff()] and [s.abs()] on an integer-valued column.  The float64 column
    pandas builds holds these integers exactly. *)
Definition diff (s : list Z) : list (option Z) := shifted (fun x prev => x - prev) s.

Definition abs (s : list (option Z)) : list (option Z) := map (option_map Z.abs) s.

(** ** Dates and rows of the table *)

Record Date : Type := mkDate { year : Z; month : Z; day : Z }.

Definition Date_eqb (a b : Date) : bool :=
  (year a =? year b) && (month a =? month b) && (day a =? day b).

(** One row of [df]: the index, the target's close, and the two columns
    computed on the full history before the window is cut (lines 34-38). *)
Record Row (num : Type) : Type := mkRow {
  date : Date;
  target : num;
  Guide_Return_Future : option num;
  Corr : option num
}.

(** ** pandas operations on a float column *)

Section Pandas.
Context {num : Type} {Ar : Arith num}.

Definition zero : num := lit 0.
Definition one : num := lit 1.

(** A value pandas treats as missing: no entry, or a float NaN. *)
Definition isna (x : option num) : bool :=
  match x with
  | Some v => isnan v
  | None => true
  end.

(** [s.shift(-k)]: row [i] receives the value of row [i + k]. *)
Definition shift_back (k : nat) (s : list (option num)) : list (option num) :=
  skipn k s ++ repeat None (Nat.min k (length s)).

(** [s.shift(k)]: row [i] receives the value of row [i - k]. *)
Definition shift_forward (k : nat) (s : list (option num)) : list (option num) :=
  repeat None (Nat.min k (length s)) ++ firstn (length s - k) s.

(** [s.ffill()]. *)
Fixpoint ffill_from (last : option num) (s : list (option num)) : list (option num) :=
  match s with
  | [] => []
  | x :: rest =>
      if isna x then last :: ffill_from last rest else x :: ffill_from x rest
  end.

Definition ffill (s : list (option num)) : list (option num) := ffill_from None s.

(** [s.pct_change(k)]: [data / data.shift(k) - 1]. *)
Definition pct_change_periods (pad : bool) (k : nat) (s : list (option num))
    : list (option num) :=
  let data := if pad then ffill s else s in
  map (fun '(a, b) => match a, b with
                      | Some x, Some y => Some (sub (div x y) one)
                      | _, _ => None
                      end)
      (combine data (shift_forward k data)).

End Pandas.

(** ** The script *)

Section Script.
Context {num : Type} {Ar : Arith num}.

(** [col > y] on a column with missing values: False where missing. *)
Definition gt (x : option num) (y : num) : bool :=
  match x with
  | Some v => ltb y v
  | None => false
  end.

(** Line 44. *)
Definition Position (df : list (Row num)) : list Z :=
  map (fun r => if gt (Guide_Return_Future r) zero && gt (Corr r) (lit 0.2)
                then 1 else 0) df.

(** Line 45. *)
Definition Trade (position : list Z) : list Z :=
  fillna (fun _ => false) 0 (abs (diff position)).

(** [s.pct_change()], that is [s.pct_change(1)], on a column read from the
    table: a NaN close is a missing value. *)
Definition pct_change (pad : bool) (s : list num) : list (option num) :=
  pct_change_periods pad 1 (map Some s).

(** Line 48. *)
Definition rets (pad : bool) (prices : list num) : list num :=
  fillna isnan zero (pct_change pad prices).

(** Lines 56-61: the body of the loop, at index [i]. *)
Definition strat_step (rets : list num) (pos_vals trade_vals : list Z)
    (trading_fees : num) (st : num * list num) (i : nat) : result (num * list num) :=
  let '(c_strat, strat_path) := st in
  c1 <- (if (0 <? i)%nat then
           p <- getitem pos_vals (i - 1) ;;
           if p =? 1 then
             r <- getitem rets i ;; ret (mul c_strat (add one r))
           else ret c_strat
         else ret c_strat) ;;
  t <- getitem trade_vals i ;;
  let c2 := if t =? 1 then mul c1 (sub one trading_fees) else c1 in
  ret (c2, strat_path ++ [c2]).

(** Lines 52-61, stopped after [k] iterations. *)
Definition strat_run (k : nat) (rets : list num) (pos_vals trade_vals : list Z)
    (trading_fees initial_cap : num) : result (num * list num) :=
  foldM (strat_step rets pos_vals trade_vals trading_fees) (seq 0 k) (initial_cap, []).

(** Lines 52-61: [n] is [len(df)]. *)
Definition strat_path (n : nat) (rets : list num) (pos_vals trade_vals : list Z)
    (trading_fees initial_cap : num) : result (list num) :=
  st <- strat_run n rets pos_vals trade_vals trading_fees initial_cap ;;
  ret (snd st).

(** Line 64. *)
Definition BuyHold (prices : list num) (initial_cap : num) : result (list num) :=
  p0 <- getitem prices 0 ;;
  ret (map (fun p => mul (div p p0) initial_cap) prices).

(** [df.loc[d, 'DCA'] = v]: every row whose index is [d] receives [v]. *)
Definition loc_set (index : list Date) (d : Date) (v : num)
    (col : list (option num)) : list (option num) :=
  map (fun '(d', old) => if Date_eqb d' d then Some v else old) (combine index col).

Definition monthly_budget (initial_cap : num) : num := div initial_cap (lit 12).

(** State of the DCA loop: [shares], [cash_spent] and the column [DCA]. *)
Record dca_state : Type := mkDca {
  shares : num;
  cash_spent : num;
  DCA_col : list (option num)
}.

(** [date == df[df.index.month == date.month].index[0]] *)
Definition first_of_month (df : list (Row num)) (d : Date) : result bool :=
  d0 <- getitem (map (@date num) (filter (fun r => month (date r) =? month d) df)) 0 ;;
  ret (Date_eqb d d0).

(** Lines 72-75: the body of the loop, at one row. *)
Definition dca_step (df : list (Row num)) (trading_fees initial_cap : num)
    (st : dca_state) (row : Row num) : result dca_state :=
  first <- first_of_month df (date row) ;;
  let buy := first && ltb (cash_spent st) initial_cap in
  let shares' :=
    if buy then add (shares st)
                    (div (mul (monthly_budget initial_cap) (sub one trading_fees))
                         (target row))
    else shares st in
  let cash_spent' :=
    if buy then add (cash_spent st) (monthly_budget initial_cap) else cash_spent st in
  let v := add (mul shares' (target row)) (sub initial_cap cash_spent') in
  ret (mkDca shares' cash_spent'
             (loc_set (map (@date num) df) (date row) v (DCA_col st))).

Definition dca_init (df : list (Row num)) : dca_state :=
  mkDca zero zero (repeat None (length df)).

(** Lines 67-75, stopped after the first [k] rows. *)
Definition dca_run (k : nat) (df : list (Row num)) (trading_fees initial_cap : num)
    : result dca_state :=
  foldM (dca_step df trading_fees initial_cap) (firstn k df) (dca_init df).

(** Lines 67-75. *)
Definition dca_loop (df : list (Row num)) (trading_fees initial_cap : num)
    : result dca_state :=
  foldM (dca_step df trading_fees initial_cap) df (dca_init df).

(** Lines 78-80: [((last / initial_cap) - 1) * 100]. *)
Definition perf (last initial_cap : num) : num :=
  mul (sub (div last initial_cap) one) (lit 100).

Record Results : Type := mkResults {
  Strategy : list num;
  BuyHold_col : list num;
  DCA : list (option num);
  perf_algo : num;
  perf_bh : num;
  perf_dca : option num
}.

(** Lines 44-80, on the window [df]. *)
Definition backtest (pad : bool) (df : list (Row num)) (trading_fees initial_cap : num)
    : result Results :=
  let position := Position df in
  let trade := Trade position in
  let prices := map (@target num) df in
  strat <- strat_path (length df) (rets pad prices) position trade
                      trading_fees initial_cap ;;
  bh <- BuyHold prices initial_cap ;;
  dca <- dca_loop df trading_fees initial_cap ;;
  s_last <- iloc_last strat ;;
  b_last <- iloc_last bh ;;
  d_last <- iloc_last (DCA_col dca) ;;
  ret (mkResults strat bh (DCA_col dca)
                 (perf s_last initial_cap)
                 (perf b_last initial_cap)
                 (option_map (fun d => perf d initial_cap) d_last)).
End Script.

(** Unfolds the interface at the exact instance. *)
Ltac exact_arith :=
  unfold one, zero in *; cbn [mul add sub div lit ltb isnan exact] in *.

(** [initial_cap = 10000] (line 19). *)
Definition initial_cap {num} {Ar : Arith num} : num := lit 10000.

(** ** The strategy loop as a recurrence

    [capital i] is the value the loop appends at index [i], written as a
    function of the previous one: the return of day [i] first, the fee of
    day [i] second. *)

Section Recurrence.
Context {num : Type} {Ar : Arith num}.
Variables (rs : list num) (pos_vals trade_vals : list Z) (trading_fees cap0 : num).

Definition apply_return (i : nat) (c : num) : num :=
  if (0 <? i)%nat && (nth (i - 1) pos_vals 0 =? 1)
  then mul c (add one (nth i rs zero)) else c.

Definition apply_fee (i : nat) (c : num) : num :=
  if nth i trade_vals 0 =? 1 then mul c (sub one trading_fees) else c.

Fixpoint capital (i : nat) : num :=
  match i with
  | O => apply_fee 0 cap0
  | S j => apply_fee (S j) (apply_return (S j) (capital j))
  end.

Definition capital_before (k : nat) : num :=
  match k with
  | O => cap0
  | S j => capital j
  end.
End Recurrence.

(** ** The DCA loop, one iteration as a function of the date test *)

Section Dca_iteration.
Context {num : Type} {Ar : Arith num}.
Variables (df : list (Row num)) (trading_fees cap0 : num).

Definition dca_next (st : dca_state) (row : Row num) (first : bool) : dca_state :=
  let buy := first && ltb (cash_spent st) cap0 in
  let shares' :=
    if buy then add (shares st)
                    (div (mul (monthly_budget cap0) (sub one trading_fees))
                         (target row))
    else shares st in
  let cash_spent' :=
    if buy then add (cash_spent st) (monthly_budget cap0) else cash_spent st in
  mkDca shares' cash_spent'
        (loc_set (map (@date num) df) (date row)
                 (add (mul shares' (target row)) (sub cap0 cash_spent'))
                 (DCA_col st)).
End Dca_iteration.

(** The flagged days among the first [n], and the spec's product of the daily
    growth factors [1 + dailyReturn(i)] over the days [i] in [1, n) whose
    previous-day position is 1. *)
Definition flagged_days (n : nat) (trade_vals : list Z) : list nat :=
  filter (fun i => nth i trade_vals 0 =? 1) (seq 0 n).

Definition flagged (n : nat) (trade_vals : list Z) : nat :=
  length (flagged_days n trade_vals).

Definition held_days (n : nat) (pos_vals : list Z) : list nat :=
  filter (fun i => nth (i - 1) pos_vals 0 =? 1) (seq 1 (n - 1)).

Definition productOfDailyGrowth (n : nat) (rs : list Q) (pos_vals : list Z) : Q :=
  fold_right Qmult 1%Q (map (fun i => (1 + nth i rs 0)%Q) (held_days n pos_vals)).

(** The signal as the specification words it, with a configurable
    [correlationThreshold]. *)
Definition Position_spec (correlationThreshold : Q)
    (guideFutureReturn rollingCorrelation : option Q) : Z :=
  match guideFutureReturn, rollingCorrelation with
  | Some g, Some c =>
      if Qlt_le_dec 0 g then
        if Qlt_le_dec correlationThreshold c then 1 else 0
      else 0
  | _, _ => 0
  end.

(** A day is the first trading day of its month in the window when no
    earlier row of the window falls in the same month. *)
Definition first_trading_day_of_month {num} (df : list (Row num)) (i : nat) : Prop :=
  forall j rj ri, (j < i)%nat ->
    nth_error df j = Some rj -> nth_error df i = Some ri ->
    month (date rj) <> month (date ri).


Definition positive_prices (prices : list Q) : Prop := Forall (fun p => (0 < p)%Q) prices.

(** The number of distinct month numbers among the rows of a window, counted
    in row order: a month counts at the first row that shows it. *)
Fixpoint count_new_months (seen : list Z) (months : list Z) : nat :=
  match months with
  | [] => 0
  | m :: rest =>
      if existsb (Z.eqb m) seen then count_new_months seen rest
      else S (count_new_months (m :: seen) rest)
  end.

Definition months_in_window {num} (df : list (Row num)) : nat :=
  count_new_months [] (map (fun r => month (date r)) df).

(** ** The columns built on the full history, and the window (lines 34-41)

    The rolling correlation of line 38 is not modelled: the column [Corr] is
    an input. *)

Section History.
Context {num : Type} {Ar : Arith num}.

(** Line 34. *)
Definition Guide_Future (guide : list num) (lag_days : nat) : list (option num) :=
  shift_back lag_days (map Some guide).

(** Line 35. *)
Definition Guide_Return_Future_col (pad : bool) (guide : list num) (lag_days : nat)
    : list (option num) :=
  pct_change_periods pad lag_days (Guide_Future guide lag_days).

(** [df_raw] after line 38: one row per date of the history. *)
Definition df_raw (pad : bool) (index : list Date) (target_close guide_close : list num)
    (corr : list (option num)) (lag_days : nat) : list (Row num) :=
  map (fun '(d, (t, (g, c))) => mkRow d t g c)
      (combine index
         (combine target_close
            (combine (Guide_Return_Future_col pad guide_close lag_days) corr))).
End History.

Definition Date_leb (a b : Date) : bool :=
  (year a <? year b)
  || ((year a =? year b)
      && ((month a <? month b)
          || ((month a =? month b) && (day a <=? day b)))).

(** Line 41: [df_raw.loc['2024-01-01':'2024-12-31']], on an increasing index. *)
Definition in_2024 (d : Date) : bool :=
  Date_leb (mkDate 2024 1 1) d && Date_leb d (mkDate 2024 12 31).

Definition loc_2024 {num} (df : list (Row num)) : list (Row num) :=
  filter (fun r => in_2024 (date r)) df.

(** A calendar date: month 1 to 12, day 1 to 31. *)
Definition calendar_date (d : Date) : Prop :=
  1 <= month d <= 12 /\ 1 <= day d <= 31.

(** Sample data used in the examples. *)
Definition jan02 : Date := mkDate 2024 1 2.
Definition jan03 : Date := mkDate 2024 1 3.
Definition feb01 : Date := mkDate 2024 2 1.

Definition sample_df : list (Row Q) :=
  [ mkRow jan02 100%Q (Some 1%Q) (Some 0.3%Q);
    mkRow jan03 110%Q (Some 1%Q) (Some 0.3%Q);
    mkRow feb01 121%Q None (Some 0.3%Q) ].

Definition one_day_df : list (Row Q) := [ mkRow jan02 100%Q (Some 1%Q) (Some 0.3%Q) ].

Definition one_day_df_binary64 : list (Row float) :=
  [ mkRow jan02 (lit 100%Q) (Some (lit 1%Q)) (Some (lit 0.3%Q)) ].

(** ** The sidebar and the whole script (lines 15-19, 30-80) *)






(** The closed form of the specification for two transitions, evaluated in the
    arithmetic at hand: [initialCapital * productOfDailyGrowth * (1 - f)^2]. *)
Definition growth_product {num} {Ar : Arith num} (n : nat) (rs : list num)
    (pos_vals : list Z) : num :=
  fold_right mul one (map (fun i => add one (nth i rs zero)) (held_days n pos_vals)).

Definition two_fee_closed_form {num} {Ar : Arith num} (n : nat) (rs : list num)
    (pos_vals : list Z) (feeRate initialCapital : num) : num :=
  mul (mul initialCapital (growth_product n rs pos_vals))
      (mul (sub one feeRate) (sub one feeRate)).

Definition primes_prices : list Q := [3; 7; 11; 13; 17; 19]%Q.
Definition primes_signal : list Z := [0; 1; 1; 0; 0; 0].

(** * Facts *)

(** ** Monad and loop lemmas *)

Lemma foldM_app {S I} (f : S -> I -> result S) (xs ys : list I) (st : S) :
  foldM f (xs ++ ys) st = (st' <- foldM f xs st ;; foldM f ys st').
Proof.
  revert st; induction xs as [|x xs IH]; intros st; simpl; [reflexivity|].
  destruct (f st x) as [e|st']; simpl; [reflexivity|apply IH].
Qed.

Lemma getitem_nth {A} (l : list A) (i : nat) (d : A) :
  (i < length l)%nat -> getitem l i = inr (nth i l d).
Proof.
  intros H. unfold getitem.
  rewrite (nth_error_nth' l d H). reflexivity.
Qed.

Lemma getitem_Some {A} (l : list A) (i : nat) (a : A) :
  nth_error l i = Some a -> getitem l i = inr a.
Proof. intros H; unfold getitem; rewrite H; reflexivity. Qed.

(** ** Column lemmas *)

Lemma fillna_length {A} (nan : A -> bool) (v : A) (s : list (option A)) :
  length (fillna nan v s) = length s.
Proof. unfold fillna; apply length_map. Qed.

Lemma with_previous_length {A} (f : A -> A -> A) (s : list A) :
  forall prev, length (with_previous f prev s) = length s.
Proof. induction s as [|x s IH]; intros prev; simpl; [|rewrite IH]; reflexivity. Qed.

Lemma shifted_length {A} (f : A -> A -> A) (s : list A) :
  length (shifted f s) = length s.
Proof. destruct s; simpl; [|rewrite with_previous_length]; reflexivity. Qed.

Lemma with_previous_nth {A} (f : A -> A -> A) (s : list A) :
  forall prev i,
    nth_error (with_previous f prev s) i =
    match nth_error (prev :: s) i, nth_error s i with
    | Some p, Some x => Some (Some (f x p))
    | _, _ => None
    end.
Proof.
  induction s as [|x s IH]; intros prev i.
  - destruct i as [|[|i]]; reflexivity.
  - destruct i as [|i]; simpl; [reflexivity|].
    rewrite IH. reflexivity.
Qed.

Lemma shifted_nth_0 {A} (f : A -> A -> A) (s : list A) (o : option A) :
  nth_error (shifted f s) 0 = Some o -> o = None.
Proof. destruct s; simpl; congruence. Qed.

Lemma shifted_nth_S {A} (f : A -> A -> A) (s : list A) (i : nat) :
  nth_error (shifted f s) (S i) =
  match nth_error s i, nth_error s (S i) with
  | Some p, Some x => Some (Some (f x p))
  | _, _ => None
  end.
Proof.
  destruct s as [|x s]; simpl.
  - destruct i; reflexivity.
  - apply with_previous_nth.
Qed.

Lemma Trade_length (position : list Z) : length (Trade position) = length position.
Proof.
  unfold Trade, abs, diff.
  rewrite fillna_length, length_map, shifted_length. reflexivity.
Qed.

Lemma Trade_nth_0 (position : list Z) (t : Z) :
  nth_error (Trade position) 0 = Some t -> t = 0.
Proof.
  unfold Trade, abs, diff, fillna.
  destruct position; simpl; congruence.
Qed.

Lemma Trade_nth_S (position : list Z) (i : nat) (p q : Z) :
  nth_error position i = Some p -> nth_error position (S i) = Some q ->
  nth_error (Trade position) (S i) = Some (Z.abs (q - p)).
Proof.
  intros Hp Hq. unfold Trade, abs, diff, fillna.
  rewrite !nth_error_map, shifted_nth_S, Hp, Hq. reflexivity.
Qed.

Lemma Trade_head_0 (position : list Z) : nth 0 (Trade position) 0 = 0.
Proof. destruct position; reflexivity. Qed.

(** C7: the transition series has one entry per day; its first entry is
    never a flag, whatever the first position; at a later day [i] the flag
    (the test [== 1] the loop makes) is raised exactly when the position
    differs from the one of day [i-1]. *)
Theorem Trade_flags_position_changes :
  forall position : list Z,
    Forall (fun p => p = 0 \/ p = 1) position ->
    length (Trade position) = length position /\
    (forall t, nth_error (Trade position) 0 = Some t -> (t =? 1) = false) /\
    (forall i p q, (0 < i)%nat ->
       nth_error position (i - 1) = Some p -> nth_error position i = Some q ->
       exists t, nth_error (Trade position) i = Some t /\
                 ((t =? 1) = true <-> q <> p)).
Proof.
  intros position Hbin. split; [apply Trade_length|]. split.
  - intros t Ht. apply Trade_nth_0 in Ht. subst t. reflexivity.
  - intros i p q Hi Hp Hq.
    destruct i as [|i]; [lia|].
    replace (S i - 1)%nat with i in Hp by lia.
    exists (Z.abs (q - p)). split; [apply Trade_nth_S; assumption|].
    rewrite Forall_forall in Hbin.
    assert (Bp : p = 0 \/ p = 1) by (apply Hbin; eapply nth_error_In; eassumption).
    assert (Bq : q = 0 \/ q = 1) by (apply Hbin; eapply nth_error_In; eassumption).
    rewrite Z.eqb_eq. lia.
Qed.

Lemma Trade_flags_position_changes_witness :
  Forall (fun p => p = 0 \/ p = 1) [1; 1; 0] /\
  length (Trade [1; 1; 0]) = length [1; 1; 0].
Proof.
  assert (H : Forall (fun p => p = 0 \/ p = 1) [1; 1; 0])
    by (repeat constructor; lia).
  split; [exact H|].
  exact (proj1 (Trade_flags_position_changes H)).
Defined.

(** ** Daily returns on prices without NaN

    On a column without NaN nothing is filled, so both defaults of
    [pct_change] give the same returns: none on the first row, then
    [price(i) / price(i-1) - 1]. *)

Section Pandas_facts.
Context {num : Type} {Ar : Arith num}.

Lemma shift_forward_length (k : nat) (s : list (option num)) :
  length (shift_forward k s) = length s.
Proof.
  unfold shift_forward. rewrite length_app, length_firstn, repeat_length. lia.
Qed.

Lemma ffill_from_length (s : list (option num)) :
  forall last, length (ffill_from last s) = length s.
Proof.
  induction s as [|x s IH]; intros last; simpl; [reflexivity|].
  destruct (isna x); simpl; rewrite IH; reflexivity.
Qed.

Lemma pct_change_periods_length (pad : bool) (k : nat) (s : list (option num)) :
  length (pct_change_periods pad k s) = length s.
Proof.
  unfold pct_change_periods. cbv zeta.
  rewrite length_map, length_combine, shift_forward_length.
  destruct pad; unfold ffill; rewrite ?ffill_from_length; lia.
Qed.

Lemma ffill_from_nothing_missing (s : list (option num)) :
  Forall (fun x => isna x = false) s ->
  forall last, ffill_from last s = s.
Proof.
  intros H. induction H as [|x s Hx Hs IH]; intros last; [reflexivity|].
  cbn [ffill_from]. rewrite Hx, IH. reflexivity.
Qed.

Lemma ratios_to_previous (rest : list num) :
  forall x,
    map (fun '(a, b) => match a, b with
                        | Some u, Some v => Some (sub (div u v) one)
                        | _, _ => None
                        end)
        (combine (map Some rest) (firstn (length rest) (Some x :: map Some rest)))
    = with_previous (fun u v => sub (div u v) one) x rest.
Proof.
  induction rest as [|y rest IH]; intros x; [reflexivity|].
  cbn [map length firstn combine with_previous]. f_equal. apply IH.
Qed.

Lemma pct_change_without_nan (pad : bool) (prices : list num) :
  Forall (fun p => isnan p = false) prices ->
  pct_change pad prices = shifted (fun u v => sub (div u v) one) prices.
Proof.
  intros Hvalid.
  assert (Hna : Forall (fun x : option num => isna x = false) (map Some prices))
    by (rewrite Forall_map; exact Hvalid).
  unfold pct_change, pct_change_periods. cbv zeta.
  replace (if pad then ffill (map Some prices) else map Some prices)
    with (map Some prices)
    by (destruct pad; [unfold ffill; rewrite ffill_from_nothing_missing|];
        auto).
  destruct prices as [|x rest]; [reflexivity|].
  unfold shift_forward, shifted.
  cbn [map length Nat.min repeat app].
  replace (S (length (map Some rest)) - 1)%nat with (length rest)
    by (rewrite length_map; lia).
  cbn [combine map]. f_equal. apply ratios_to_previous.
Qed.

Lemma rets_length (pad : bool) (prices : list num) :
  length (rets pad prices) = length prices.
Proof.
  unfold rets, pct_change.
  rewrite fillna_length, pct_change_periods_length, length_map. reflexivity.
Qed.

Lemma rets_without_nan (pad : bool) (prices : list num) :
  Forall (fun p => isnan p = false) prices ->
  rets pad prices = fillna isnan zero (shifted (fun u v => sub (div u v) one) prices).
Proof. intros H. unfold rets. rewrite pct_change_without_nan by exact H. reflexivity. Qed.
End Pandas_facts.

Lemma rets_exact (pad : bool) (prices : list Q) :
  rets pad prices = fillna isnan zero (shifted (fun u v => sub (div u v) one) prices).
Proof. apply rets_without_nan. apply Forall_forall. intros p _. reflexivity. Qed.

(** ** The strategy loop *)

Lemma foldM_single {S I} (f : S -> I -> result S) (x : I) (st : S) :
  foldM f [x] st = f st x.
Proof. simpl. destruct (f st x); reflexivity. Qed.

Section Strategy_loop.
Context {num : Type} {Ar : Arith num}.
Variables (rs : list num) (pos_vals trade_vals : list Z) (trading_fees cap0 : num).

Local Abbreviation cap := (capital rs pos_vals trade_vals trading_fees cap0).
Local Abbreviation cap_before := (capital_before rs pos_vals trade_vals trading_fees cap0).

Lemma strat_step_capital (k : nat) (path : list num) :
  (k < length rs)%nat -> (k < length pos_vals)%nat -> (k < length trade_vals)%nat ->
  strat_step rs pos_vals trade_vals trading_fees (cap_before k, path) k =
  inr (cap k, path ++ [cap k]).
Proof.
  intros Hr Hp Ht.
  destruct k as [|j]; unfold strat_step, capital_before.
  - rewrite (getitem_nth trade_vals 0) by lia. reflexivity.
  - change (0 <? S j)%nat with true. cbv iota.
    replace (S j - 1)%nat with j by lia.
    rewrite (getitem_nth pos_vals 0), (getitem_nth trade_vals 0) by lia.
    change (cap (S j))
      with (apply_fee trade_vals trading_fees (S j)
              (apply_return rs pos_vals (S j) (cap j))).
    unfold apply_return, apply_fee.
    change (0 <? S j)%nat with true.
    replace (S j - 1)%nat with j by lia.
    cbn [bind ret andb].
    destruct (nth j pos_vals 0 =? 1).
    + rewrite (getitem_nth rs zero) by lia. reflexivity.
    + reflexivity.
Qed.

Lemma strat_run_capital (k : nat) :
  (k <= length rs)%nat -> (k <= length pos_vals)%nat -> (k <= length trade_vals)%nat ->
  strat_run k rs pos_vals trade_vals trading_fees cap0 =
  inr (cap_before k, map (fun i => cap i) (seq 0 k)).
Proof.
  induction k as [|k IH]; intros Hr Hp Ht; [reflexivity|].
  unfold strat_run in *.
  rewrite seq_S, foldM_app, IH by lia.
  cbn [bind]. rewrite foldM_single.
  rewrite strat_step_capital by lia.
  rewrite map_app. reflexivity.
Qed.

Lemma strat_path_capital (n : nat) :
  length rs = n -> length pos_vals = n -> length trade_vals = n ->
  strat_path n rs pos_vals trade_vals trading_fees cap0 =
  inr (map (fun i => cap i) (seq 0 n)).
Proof.
  intros Hr Hp Ht. unfold strat_path.
  rewrite strat_run_capital by lia. reflexivity.
Qed.

Lemma capital_path_nth (n i : nat) :
  (i < n)%nat -> nth_error (map (fun i => cap i) (seq 0 n)) i = Some (cap i).
Proof.
  intros Hi. rewrite nth_error_map, nth_error_seq.
  destruct (Nat.ltb_spec i n); [reflexivity|lia].
Qed.
End Strategy_loop.


(** The daily returns of line 48 on prices without NaN: 0 on the first day,
    then [price(i) / price(i-1) - 1], a NaN result being replaced by 0. *)
Lemma rets_nth_0 {num} {Ar : Arith num} (pad : bool) (prices : list num) (r : num) :
  Forall (fun p => isnan p = false) prices ->
  nth_error (rets pad prices) 0 = Some r -> r = zero.
Proof.
  intros Hvalid. rewrite rets_without_nan by exact Hvalid.
  unfold fillna. destruct prices; simpl; congruence.
Qed.

Lemma rets_nth_S {num} {Ar : Arith num} (pad : bool) (prices : list num)
    (i : nat) (p q : num) :
  Forall (fun p => isnan p = false) prices ->
  nth_error prices i = Some p -> nth_error prices (S i) = Some q ->
  nth_error (rets pad prices) (S i) =
  Some (let r := sub (div q p) one in if isnan r then zero else r).
Proof.
  intros Hvalid Hp Hq. rewrite rets_without_nan by exact Hvalid.
  unfold fillna.
  rewrite nth_error_map, shifted_nth_S, Hp, Hq. reflexivity.
Qed.



(** C4: prices [100,100,110,110], signal [0,1,1,0], fee 0.1 and capital 10000
    give the curve [10000, 9000, 9900, 8910], in binary64 arithmetic bit for
    bit and in exact arithmetic, under either default of [pct_change]; the
    final capital is 8910. *)
Theorem scenario_8910 :
  forall pad : bool,
  strat_path 4 (rets pad (map lit [100; 100; 110; 110]%Q)) [0; 1; 1; 0]
             (Trade [0; 1; 1; 0]) (lit (1 # 10)) (lit 10000)
    = inr [10000; 9000; 9900; 8910]%float /\
  exists path,
    strat_path 4 (rets pad [100; 100; 110; 110]%Q) [0; 1; 1; 0]
               (Trade [0; 1; 1; 0]) (1 # 10)%Q 10000%Q = inr path /\
    Forall2 Qeq path [10000; 9000; 9900; 8910]%Q /\
    exists last, iloc_last path = inr last /\ (last == 8910)%Q.
Proof.
  intros [|].
  - split; [vm_compute; reflexivity|].
    eexists. split; [vm_compute; reflexivity|]. split.
    + repeat constructor; vm_compute; reflexivity.
    + eexists. split; [vm_compute; reflexivity|]. vm_compute. reflexivity.
  - split; [vm_compute; reflexivity|].
    eexists. split; [vm_compute; reflexivity|]. split.
    + repeat constructor; vm_compute; reflexivity.
    + eexists. split; [vm_compute; reflexivity|]. vm_compute. reflexivity.
Qed.

(** ** Exact arithmetic: closed form of the strategy capital *)

Lemma Qpower_nat_succ (q : Q) (m : nat) :
  (q ^ Z.of_nat (S m) == q ^ Z.of_nat m * q)%Q.
Proof.
  rewrite Nat2Z.inj_succ. unfold Z.succ.
  rewrite Qpower_plus' by lia. reflexivity.
Qed.

Lemma flagged_S (k : nat) (trade_vals : list Z) :
  flagged (S k) trade_vals =
  (flagged k trade_vals + (if (nth k trade_vals 0 =? 1)%Z then 1 else 0))%nat.
Proof.
  unfold flagged, flagged_days.
  rewrite seq_S, filter_app, length_app. simpl.
  destruct (nth k trade_vals 0 =? 1); reflexivity.
Qed.

Lemma productOfDailyGrowth_1 (rs : list Q) (pos_vals : list Z) :
  productOfDailyGrowth 1 rs pos_vals = 1%Q.
Proof. reflexivity. Qed.

Lemma fold_right_Qmult_app (l1 l2 : list Q) :
  (fold_right Qmult 1 (l1 ++ l2) == fold_right Qmult 1 l1 * fold_right Qmult 1 l2)%Q.
Proof.
  induction l1 as [|x l1 IH]; simpl; [ring|]. rewrite IH. ring.
Qed.

Lemma productOfDailyGrowth_S (j : nat) (rs : list Q) (pos_vals : list Z) :
  (productOfDailyGrowth (S (S j)) rs pos_vals ==
   productOfDailyGrowth (S j) rs pos_vals *
   (if (nth j pos_vals 0 =? 1)%Z then 1 + nth (S j) rs 0 else 1))%Q.
Proof.
  unfold productOfDailyGrowth, held_days.
  replace (S (S j) - 1)%nat with (S j) by lia.
  replace (S j - 1)%nat with j by lia.
  rewrite seq_S, filter_app, map_app, fold_right_Qmult_app.
  simpl filter. rewrite Nat.sub_0_r.
  destruct (nth j pos_vals 0 =? 1); cbn [map fold_right]; ring.
Qed.

Lemma capital_closed_form (rs : list Q) (pos_vals trade_vals : list Z)
    (fee cap0 : Q) (k : nat) :
  (capital rs pos_vals trade_vals fee cap0 k ==
   cap0 * productOfDailyGrowth (S k) rs pos_vals
        * (1 - fee) ^ Z.of_nat (flagged (S k) trade_vals))%Q.
Proof.
  induction k as [|j IH].
  - rewrite productOfDailyGrowth_1. unfold flagged, flagged_days.
    simpl. unfold apply_fee. exact_arith.
    destruct (nth 0 trade_vals 0 =? 1); simpl; ring.
  - rewrite productOfDailyGrowth_S, flagged_S.
    simpl capital. unfold apply_fee, apply_return. exact_arith.
    change (0 <? S j)%nat with true.
    replace (S j - 1)%nat with j by lia. cbn [andb].
    destruct (nth j pos_vals 0 =? 1); destruct (nth (S j) trade_vals 0 =? 1);
      rewrite IH;
      rewrite ?Nat.add_0_r;
      rewrite ?Nat.add_1_r, ?Qpower_nat_succ; ring.
Qed.

Lemma iloc_last_map_seq {A} (f : nat -> A) (n : nat) :
  (0 < n)%nat -> iloc_last (map f (seq 0 n)) = inr (f (n - 1)%nat).
Proof.
  intros Hn. destruct n as [|m]; [lia|].
  unfold iloc_last. change (map f (seq 0 (S m))) with (f 0%nat :: map f (seq 1 m)).
  change (f 0%nat :: map f (seq 1 m)) with (map f (seq 0 (S m))).
  apply getitem_Some.
  rewrite length_map, length_seq, nth_error_map, nth_error_seq.
  destruct (Nat.ltb_spec (S m - 1) (S m)); [reflexivity|lia].
Qed.

Lemma flagged_le (n : nat) (trade_vals : list Z) : (flagged n trade_vals <= n)%nat.
Proof.
  unfold flagged, flagged_days.
  etransitivity; [apply filter_length_le|]. rewrite length_seq. lia.
Qed.

(** C5 (as the code has it): when the transition series of the signal holds
    exactly two flagged days, the last capital of the strategy is, in exact
    arithmetic, [initialCapital] times the product of [1 + dailyReturn(i)]
    over the days whose previous-day position is 1, times [(1 - feeRate)^2].
    In binary64 the loop rounds after each multiplication and the equality
    holds up to rounding only. *)
Theorem two_transitions_two_fees :
  forall (pad : bool) (prices : list Q) (position : list Z) (feeRate initialCapital : Q),
    length position = length prices ->
    flagged (length prices) (Trade position) = 2%nat ->
    exists path last,
      strat_path (length prices) (rets pad prices) position (Trade position)
                 feeRate initialCapital = inr path /\
      iloc_last path = inr last /\
      (last == initialCapital
               * productOfDailyGrowth (length prices) (rets pad prices) position
               * (1 - feeRate) ^ 2)%Q.
Proof.
  intros pad prices position fee ic Hp H2.
  assert (Hn : (2 <= length prices)%nat)
    by (rewrite <- H2; apply flagged_le).
  do 2 eexists. split; [|split].
  - apply strat_path_capital;
      [apply rets_length|assumption|rewrite Trade_length; assumption].
  - apply iloc_last_map_seq. lia.
  - cbv beta. rewrite capital_closed_form.
    replace (S (length prices - 1)) with (length prices) by lia.
    rewrite H2. reflexivity.
Qed.

Lemma two_transitions_two_fees_witness :
  exists path last,
    strat_path 4 (rets true [100; 100; 110; 110]%Q) [0; 1; 1; 0] (Trade [0; 1; 1; 0])
               (1 # 10)%Q 10000%Q = inr path /\
    iloc_last path = inr last /\
    (last == 10000 * productOfDailyGrowth 4 (rets true [100; 100; 110; 110]%Q) [0; 1; 1; 0]%Z
                   * (1 - (1 # 10)) ^ 2)%Q.
Proof.
  exact (@two_transitions_two_fees true [100; 100; 110; 110]%Q [0; 1; 1; 0]
           (1 # 10)%Q 10000%Q eq_refl eq_refl).
Defined.

(** C5 as worded fails in binary64: on prices [3,7,11,13,17,19], signal
    [0,1,1,0,0,0] (two flagged days) and a fee of 0.3 %, the last capital of
    the loop is below the closed form evaluated in binary64, under either
    default of [pct_change]. *)
Lemma closed_form_not_exact_in_binary64 :
  flagged 6 (Trade primes_signal) = 2%nat /\
  forall pad : bool,
  exists path last,
    strat_path 6 (rets pad (map lit primes_prices)) primes_signal
               (Trade primes_signal) (lit (3 # 1000)) initial_cap = inr path /\
    iloc_last path = inr last /\
    PrimFloat.eqb last
      (two_fee_closed_form 6 (rets pad (map lit primes_prices)) primes_signal
                           (lit (3 # 1000)) initial_cap) = false /\
    PrimFloat.ltb last
      (two_fee_closed_form 6 (rets pad (map lit primes_prices)) primes_signal
                           (lit (3 # 1000)) initial_cap) = true.
Proof.
  split; [reflexivity|].
  intros [|]; do 2 eexists;
    (split; [vm_compute; reflexivity|]);
    (split; [vm_compute; reflexivity|]);
    split; vm_compute; reflexivity.
Qed.

(** ** Exact arithmetic: the fee can only lower the curve *)

Lemma with_previous_growth_nonneg (s : list Q) :
  forall prev, (0 < prev)%Q -> positive_prices s ->
    Forall (fun r => (0 <= 1 + r)%Q)
           (fillna isnan zero (with_previous (fun x p => sub (div x p) one) prev s)).
Proof.
  induction s as [|x s IH]; intros prev Hprev Hs; [constructor|].
  inversion Hs as [|? ? Hx Hrest]; subst.
  simpl. constructor; [|apply IH; assumption].
  exact_arith.
  assert (H : (0 < x / prev)%Q) by (apply Qlt_shift_div_l; lra).
  lra.
Qed.

Lemma rets_growth_nonneg (pad : bool) (prices : list Q) (i : nat) :
  positive_prices prices -> (0 <= 1 + nth i (rets pad prices) 0)%Q.
Proof.
  intros Hpos.
  assert (HF : Forall (fun r => (0 <= 1 + r)%Q) (rets pad prices)).
  { rewrite rets_exact. unfold shifted. destruct prices as [|x s]; [constructor|].
    inversion Hpos; subst. simpl. constructor.
    - exact_arith. lra.
    - apply with_previous_growth_nonneg; assumption. }
  destruct (Nat.lt_ge_cases i (length (rets pad prices))) as [Hi|Hi].
  - rewrite Forall_forall in HF. apply HF. apply nth_In. exact Hi.
  - rewrite nth_overflow by exact Hi. lra.
Qed.

Lemma capital_fee_monotone (rs : list Q) (pos_vals trade_vals : list Z)
    (f1 f2 cap0 : Q) :
  (forall i, 0 <= 1 + nth i rs 0)%Q ->
  (0 <= cap0)%Q -> (0 <= f1)%Q -> (f1 <= f2)%Q -> (f2 <= 1)%Q ->
  forall k,
    (0 <= capital rs pos_vals trade_vals f2 cap0 k)%Q /\
    (capital rs pos_vals trade_vals f2 cap0 k
       <= capital rs pos_vals trade_vals f1 cap0 k)%Q.
Proof.
  intros Hg Hc H1 H12 H2 k.
  induction k as [|j [IH0 IH]].
  - simpl. unfold apply_fee. exact_arith.
    destruct (nth 0 trade_vals 0 =? 1); split; nra.
  - simpl capital. unfold apply_fee, apply_return. exact_arith.
    change (0 <? S j)%nat with true. cbn [andb].
    specialize (Hg (S j)).
    set (g := (1 + nth (S j) rs 0)%Q) in *.
    set (c2 := capital rs pos_vals trade_vals f2 cap0 j) in *.
    set (c1 := capital rs pos_vals trade_vals f1 cap0 j) in *.
    assert (G0 : (0 <= c2 * g)%Q) by nra.
    assert (G1 : (c2 * g <= c1 * g)%Q) by nra.
    destruct (nth (S j - 1) pos_vals 0 =? 1);
      destruct (nth (S j) trade_vals 0 =? 1); split; nra.
Qed.

Lemma Forall2_map_seq {A} (R : A -> A -> Prop) (f g : nat -> A) (l : list nat) :
  (forall i, R (f i) (g i)) -> Forall2 R (map f l) (map g l).
Proof. intros H. induction l; simpl; constructor; auto. Qed.

(** C10: on a price series (prices positive, as the data model requires),
    with a positive initial capital, raising the fee rate within [0,1) never
    raises the capital of any day: the curve under [f2] lies pointwise at or
    below the curve under [f1] whenever [0 <= f1 <= f2 < 1]. *)
Theorem strategy_curve_antitone_in_fee :
  forall (pad : bool) (prices : list Q) (position trade : list Z) (f1 f2 initialCapital : Q),
    positive_prices prices ->
    length position = length prices ->
    length trade = length prices ->
    (0 < initialCapital)%Q ->
    (0 <= f1)%Q -> (f1 <= f2)%Q -> (f2 < 1)%Q ->
    exists path1 path2,
      strat_path (length prices) (rets pad prices) position trade f1 initialCapital
        = inr path1 /\
      strat_path (length prices) (rets pad prices) position trade f2 initialCapital
        = inr path2 /\
      Forall2 Qle path2 path1.
Proof.
  intros pad prices position trade f1 f2 ic Hpos Hp Ht Hic H1 H12 H2.
  do 2 eexists. split; [|split].
  - apply strat_path_capital; [apply rets_length|assumption|assumption].
  - apply strat_path_capital; [apply rets_length|assumption|assumption].
  - apply Forall2_map_seq. intros i.
    apply capital_fee_monotone; try assumption; try lra.
    intros k. apply rets_growth_nonneg. assumption.
Qed.

Lemma strategy_curve_antitone_in_fee_witness :
  exists path1 path2,
    strat_path 4 (rets true [100; 100; 110; 110]%Q) [0; 1; 1; 0] [0; 1; 0; 1]
               (1 # 1000)%Q 10000%Q = inr path1 /\
    strat_path 4 (rets true [100; 100; 110; 110]%Q) [0; 1; 1; 0] [0; 1; 0; 1]
               (1 # 10)%Q 10000%Q = inr path2 /\
    Forall2 Qle path2 path1.
Proof.
  apply (@strategy_curve_antitone_in_fee true [100; 100; 110; 110]%Q
           [0; 1; 1; 0] [0; 1; 0; 1] (1 # 1000)%Q (1 # 10)%Q 10000%Q).
  - repeat constructor.
  - reflexivity.
  - reflexivity.
  - reflexivity.
  - discriminate.
  - discriminate.
  - reflexivity.
Defined.

(** ** The signal *)

Lemma exact_ltb_lt (x y : Q) : ltb x y = true <-> (x < y)%Q.
Proof.
  exact_arith. rewrite negb_true_iff.
  split; intros H.
  - apply Qnot_le_lt. intros Hle. apply Qle_bool_iff in Hle. congruence.
  - destruct (Qle_bool y x) eqn:E; [|reflexivity].
    apply Qle_bool_iff in E. lra.
Qed.

Lemma exact_gt_iff (x : option Q) (y : Q) :
  gt x y = true <-> exists v, x = Some v /\ (y < v)%Q.
Proof.
  destruct x as [v|]; cbn [gt].
  - rewrite exact_ltb_lt. split.
    + intros H. exists v. auto.
    + intros (v' & Hv & Hlt). injection Hv as <-. exact Hlt.
  - split; [discriminate|]. intros (v & Hv & _). discriminate.
Qed.

(** C6 (as the code has it): the signal has one entry per day of the window,
    each 0 or 1, never undefined; it is 1 exactly when both inputs are defined,
    the guide's future return is positive and the rolling correlation exceeds
    the constant 0.2 written in the code, which reads no threshold from any
    configuration. *)
Theorem Position_fixed_threshold :
  forall df : list (Row Q),
    length (Position df) = length df /\
    forall i r, nth_error df i = Some r ->
      exists p, nth_error (Position df) i = Some p /\
                (p = 0 \/ p = 1) /\
                (p = 1 <-> exists g c, Guide_Return_Future r = Some g /\
                                       Corr r = Some c /\
                                       (0 < g)%Q /\ (0.2 < c)%Q) /\
                (Guide_Return_Future r = None \/ Corr r = None -> p = 0).
Proof.
  intros df. split; [apply length_map|].
  intros i r Hr. unfold Position.
  rewrite nth_error_map, Hr. cbn [option_map].
  eexists. split; [reflexivity|].
  pose proof (exact_gt_iff (Guide_Return_Future r) zero) as Hg.
  pose proof (exact_gt_iff (Corr r) (lit 0.2%Q)) as Hc.
  destruct (gt (Guide_Return_Future r) zero);
    destruct (gt (Corr r) (lit 0.2%Q)); cbn [andb].
  - destruct (proj1 Hg eq_refl) as (g & Eg & Lg).
    destruct (proj1 Hc eq_refl) as (c & Ec & Lc).
    split; [right; reflexivity|]. split; [|rewrite Eg, Ec; intros [H|H]; discriminate].
    split; [|reflexivity]. intros _. exists g, c. auto.
  - split; [left; reflexivity|]. split.
    + split; [discriminate|]. intros (g & c & _ & Ec & _ & Lc).
      assert (false = true) by (apply Hc; exists c; auto). discriminate.
    + reflexivity.
  - split; [left; reflexivity|]. split.
    + split; [discriminate|]. intros (g & c & Eg & _ & Lg & _).
      assert (false = true) by (apply Hg; exists g; auto). discriminate.
    + reflexivity.
  - split; [left; reflexivity|]. split.
    + split; [discriminate|]. intros (g & c & Eg & _ & Lg & _).
      assert (false = true) by (apply Hg; exists g; auto). discriminate.
    + reflexivity.
Qed.

(** C6 as worded fails: with a configured threshold of 0.5, a correlation of
    0.3 and a positive guide return, the specification's signal is 0 and the
    code's signal is 1. *)
Lemma Position_ignores_configured_threshold :
  Position one_day_df = [1] /\
  Position_spec 0.5 (Some 1%Q) (Some 0.3%Q) = 0.
Proof. split; vm_compute; reflexivity. Qed.

(** In binary64 arithmetic a NaN in either column gives position 0. *)
Lemma Position_binary64_nan (d : Date) (p x : float) :
  Position [mkRow d p (Some PrimFloat.nan) (Some x)] = [0] /\
  Position [mkRow d p (Some x) (Some PrimFloat.nan)] = [0].
Proof.
  split.
  - reflexivity.
  - unfold Position. cbn [map gt Guide_Return_Future Corr].
    replace (ltb (lit 0.2%Q) PrimFloat.nan) with false by (vm_compute; reflexivity).
    rewrite andb_false_r. reflexivity.
Qed.

(** ** The DCA loop *)

Lemma firstn_S_nth_error {A} (l : list A) :
  forall k x, nth_error l k = Some x -> firstn (S k) l = firstn k l ++ [x].
Proof.
  induction l as [|a l IH]; intros [|k] x H; simpl in H; try discriminate.
  - injection H as ->. reflexivity.
  - cbn [firstn app]. f_equal. apply IH. exact H.
Qed.

Lemma Date_eqb_eq (a b : Date) : Date_eqb a b = true <-> a = b.
Proof.
  unfold Date_eqb. rewrite !andb_true_iff, !Z.eqb_eq.
  destruct a, b; simpl. split.
  - intros [[-> ->] ->]. reflexivity.
  - intros H. injection H as -> -> ->. auto.
Qed.

Lemma Date_eqb_refl (a : Date) : Date_eqb a a = true.
Proof. apply Date_eqb_eq. reflexivity. Qed.

Lemma filter_head_first {A} (P : A -> bool) (l : list A) :
  forall x rest, filter P l = x :: rest ->
    exists j, nth_error l j = Some x /\ P x = true /\
              forall i y, (i < j)%nat -> nth_error l i = Some y -> P y = false.
Proof.
  induction l as [|a l IH]; intros x rest H; simpl in H; [discriminate|].
  destruct (P a) eqn:Pa.
  - injection H as -> _. exists 0%nat. split; [reflexivity|]. split; [exact Pa|].
    intros i y Hi. lia.
  - destruct (IH _ _ H) as (j & Hj & Px & Hlt).
    exists (S j). split; [exact Hj|]. split; [exact Px|].
    intros [|i] y Hi Hy; simpl in Hy.
    + injection Hy as <-. exact Pa.
    + apply (Hlt i); [lia|exact Hy].
Qed.

Section Dca_loop.
Context {num : Type} {Ar : Arith num}.
Variables (df : list (Row num)) (trading_fees cap0 : num).

Local Abbreviation dates := (map (@date num) df).

Lemma loc_set_nth (idx : list Date) (d : Date) (v : num) :
  forall (col : list (option num)) i d' old,
    nth_error idx i = Some d' -> nth_error col i = Some old ->
    nth_error (loc_set idx d v col) i = Some (if Date_eqb d' d then Some v else old).
Proof.
  unfold loc_set.
  induction idx as [|a idx IH]; intros [|o col] [|i] d' old Hd Ho;
    simpl in *; try discriminate.
  - injection Hd as ->. injection Ho as ->. reflexivity.
  - apply IH; assumption.
Qed.

Lemma loc_set_length (idx : list Date) (d : Date) (v : num) (col : list (option num)) :
  length col = length idx -> length (loc_set idx d v col) = length idx.
Proof.
  intros H. unfold loc_set. rewrite length_map, length_combine. lia.
Qed.

(** The date test of line 72, on a row of the table: it succeeds, and holds
    exactly when the row's date is the date of the first row of the table
    with the same month. *)
Lemma first_of_month_row (row : Row num) :
  In row df ->
  exists r0 j, first_of_month df (date row) = inr (Date_eqb (date row) (date r0)) /\
               nth_error df j = Some r0 /\
               month (date r0) = month (date row) /\
               forall i y, (i < j)%nat -> nth_error df i = Some y ->
                           month (date y) <> month (date row).
Proof.
  intros Hin. unfold first_of_month.
  destruct (filter (fun r => month (date r) =? month (date row)) df)
    as [|r0 rest] eqn:E.
  - exfalso.
    assert (H : In row (filter (fun r => month (date r) =? month (date row)) df))
      by (apply filter_In; split; [exact Hin|apply Z.eqb_refl]).
    rewrite E in H. exact H.
  - destruct (filter_head_first _ _ E) as (j & Hj & P0 & Hlt).
    exists r0, j. split; [reflexivity|]. split; [exact Hj|].
    split; [apply Z.eqb_eq; exact P0|].
    intros i y Hi Hy. apply Z.eqb_neq. apply (Hlt i); assumption.
Qed.

Lemma dca_step_next (st : dca_state) (row : Row num) (b : bool) :
  first_of_month df (date row) = inr b ->
  dca_step df trading_fees cap0 st row = inr (dca_next df trading_fees cap0 st row b).
Proof. intros H. unfold dca_step. rewrite H. reflexivity. Qed.

Lemma dca_run_S (k : nat) (row : Row num) :
  nth_error df k = Some row ->
  dca_run (S k) df trading_fees cap0 =
  (st <- dca_run k df trading_fees cap0 ;; dca_step df trading_fees cap0 st row).
Proof.
  intros H. unfold dca_run.
  rewrite (firstn_S_nth_error _ _ H), foldM_app.
  destruct (foldM _ (firstn k df) _) as [e|st]; cbn [bind]; [reflexivity|].
  apply foldM_single.
Qed.

Lemma dca_loop_run :
  dca_loop df trading_fees cap0 = dca_run (length df) df trading_fees cap0.
Proof. unfold dca_loop, dca_run. rewrite firstn_all. reflexivity. Qed.

(** One more row: the next state is [dca_next] at the date test, and the
    test compares the row's date with the date of the first row of the
    same month. *)
Lemma dca_run_step (k : nat) (row : Row num) (st : dca_state) :
  nth_error df k = Some row ->
  dca_run k df trading_fees cap0 = inr st ->
  exists r0 j,
    dca_run (S k) df trading_fees cap0 =
      inr (dca_next df trading_fees cap0 st row (Date_eqb (date row) (date r0))) /\
    nth_error df j = Some r0 /\
    month (date r0) = month (date row) /\
    forall i y, (i < j)%nat -> nth_error df i = Some y ->
                month (date y) <> month (date row).
Proof.
  intros Hrow Hrun.
  destruct (first_of_month_row row (nth_error_In _ _ Hrow))
    as (r0 & j & Hfirst & Hj & Hm & Hlt).
  exists r0, j. split; [|auto].
  rewrite (dca_run_S _ Hrow), Hrun. cbn [bind].
  apply dca_step_next. exact Hfirst.
Qed.

Lemma dca_run_defined (k : nat) :
  (k <= length df)%nat ->
  exists st, dca_run k df trading_fees cap0 = inr st /\
             length (DCA_col st) = length df.
Proof.
  induction k as [|k IH]; intros Hk.
  - exists (dca_init df). split; [reflexivity|].
    unfold dca_init. cbn [DCA_col]. apply repeat_length.
  - destruct IH as (st & Hrun & Hlen); [lia|].
    destruct (nth_error df k) as [row|] eqn:Hrow;
      [|apply nth_error_None in Hrow; lia].
    destruct (dca_run_step _ Hrow Hrun) as (r0 & j & Hnext & _).
    eexists. split; [exact Hnext|].
    cbn [dca_next DCA_col]. rewrite loc_set_length.
    + apply length_map.
    + rewrite Hlen, length_map. reflexivity.
Qed.

(** After [k] rows the loop has not failed, the column has one entry per
    row, and the entry of each row already visited is the value computed
    from the state reached at that row. *)
Lemma dca_run_invariant :
  NoDup dates ->
  forall k, (k <= length df)%nat ->
    exists st, dca_run k df trading_fees cap0 = inr st /\
               length (DCA_col st) = length df /\
               forall i row sti, (i < k)%nat -> nth_error df i = Some row ->
                 dca_run (S i) df trading_fees cap0 = inr sti ->
                 nth_error (DCA_col st) i =
                 Some (Some (add (mul (shares sti) (target row))
                                 (sub cap0 (cash_spent sti)))).
Proof.
  intros Hnd. induction k as [|k IH]; intros Hk.
  - exists (dca_init df). split; [reflexivity|]. split.
    + unfold dca_init. cbn [DCA_col]. apply repeat_length.
    + intros i row sti Hi. lia.
  - destruct IH as (st & Hrun & Hlen & Hcol); [lia|].
    destruct (nth_error df k) as [row|] eqn:Hrow;
      [|apply nth_error_None in Hrow; lia].
    destruct (first_of_month_row row (nth_error_In _ _ Hrow))
      as (r0 & j & Hfirst & _).
    assert (Hnext : dca_run (S k) df trading_fees cap0 =
                    inr (dca_next df trading_fees cap0 st row
                                  (Date_eqb (date row) (date r0)))).
    { rewrite (dca_run_S _ Hrow), Hrun. cbn [bind].
      apply dca_step_next. exact Hfirst. }
    eexists. split; [exact Hnext|]. split.
    + cbn [dca_next DCA_col]. rewrite loc_set_length.
      * apply length_map.
      * rewrite Hlen, length_map. reflexivity.
    + intros i rowi sti Hi Hrowi Hsti.
      assert (Hdi : nth_error dates i = Some (date rowi))
        by (rewrite nth_error_map, Hrowi; reflexivity).
      destruct (nth_error (DCA_col st) i) as [old|] eqn:Hold;
        [|apply nth_error_None in Hold;
          assert (i < length df)%nat
            by (apply nth_error_Some; rewrite Hrowi; discriminate);
          lia].
      cbn [dca_next DCA_col].
      rewrite (loc_set_nth _ _ _ _ _ Hdi Hold).
      destruct (Nat.eq_dec i k) as [->|Hne].
      * rewrite Hrow in Hrowi. injection Hrowi as <-.
        rewrite Hnext in Hsti. injection Hsti as <-.
        rewrite Date_eqb_refl. reflexivity.
      * destruct (Date_eqb (date rowi) (date row)) eqn:E.
        -- exfalso. apply Date_eqb_eq in E. apply Hne.
           apply (proj1 (NoDup_nth_error dates) Hnd).
           ++ apply nth_error_Some. rewrite Hdi. discriminate.
           ++ rewrite Hdi, nth_error_map, Hrow, E. reflexivity.
        -- rewrite <- Hold. apply Hcol; [lia|assumption|assumption].
Qed.
End Dca_loop.

(** ** Exact arithmetic: the cash spent by the DCA loop *)

Lemma dca_cash_multiple (df : list (Row Q)) (fee cap0 : Q) :
  (0 < cap0)%Q ->
  forall k st, (k <= length df)%nat -> dca_run k df fee cap0 = inr st ->
    exists m : nat, (m <= 12)%nat /\
                    (cash_spent st == inject_Z (Z.of_nat m) * (cap0 / 12))%Q.
Proof.
  intros Hc. induction k as [|k IH]; intros st Hk Hrun.
  - injection Hrun as <-. exists 0%nat. split; [lia|].
    unfold dca_init. cbn [cash_spent]. exact_arith. simpl. ring.
  - destruct (@dca_run_defined _ _ df fee cap0 k) as (st0 & Hrun0 & _); [lia|].
    destruct (IH st0) as (m & Hm & Hcash); [lia|exact Hrun0|].
    destruct (nth_error df k) as [row|] eqn:Hrow;
      [|apply nth_error_None in Hrow; lia].
    destruct (@dca_run_step _ _ df fee cap0 k row st0 Hrow Hrun0)
      as (r0 & j & Hnext & _).
    rewrite Hnext in Hrun. injection Hrun as <-.
    cbn [dca_next cash_spent].
    destruct (Date_eqb (date row) (date r0) && ltb (cash_spent st0) cap0) eqn:Buy.
    + apply andb_true_iff in Buy. destruct Buy as [_ Hlt].
      apply exact_ltb_lt in Hlt.
      unfold monthly_budget. exact_arith.
      assert (Ht : (0 < cap0 / 12)%Q) by (apply Qlt_shift_div_l; lra).
      assert (H12 : (cap0 == 12 * (cap0 / 12))%Q) by (field).
      assert (Hmq : (inject_Z (Z.of_nat m) < 12)%Q) by nra.
      assert (Hm12 : (m < 12)%nat).
      { change 12%Q with (inject_Z 12) in Hmq. rewrite <- Zlt_Qlt in Hmq. lia. }
      exists (S m). split; [lia|].
      rewrite Hcash, Nat2Z.inj_succ. unfold Z.succ. rewrite inject_Z_plus.
      change (inject_Z 1) with 1%Q. ring.
    + exists m. split; assumption.
Qed.

Lemma dca_cash_bounded (df : list (Row Q)) (fee cap0 : Q) :
  (0 < cap0)%Q ->
  forall k st, (k <= length df)%nat -> dca_run k df fee cap0 = inr st ->
    (cash_spent st <= cap0)%Q.
Proof.
  intros Hc k st Hk Hrun.
  destruct (@dca_cash_multiple df fee cap0 Hc k st Hk Hrun) as (m & Hm & Hcash).
  assert (Ht : (0 < cap0 / 12)%Q) by (apply Qlt_shift_div_l; lra).
  assert (H12 : (cap0 == 12 * (cap0 / 12))%Q) by (field).
  assert (Hmq : (inject_Z (Z.of_nat m) <= 12)%Q).
  { change 12%Q with (inject_Z 12). rewrite <- Zle_Qle. lia. }
  rewrite Hcash. nra.
Qed.

Lemma sample_df_dates_distinct : NoDup (map (@date Q) sample_df).
Proof.
  repeat constructor; simpl; intuition discriminate.
Qed.

(** C8: on a window with distinct dates and a positive initial capital, the
    DCA loop (exact arithmetic) ends without error with one value per date;
    the value of a date is [shares * price + (initialCapital - cash_spent)]
    for the shares and the cash reached at that date; at each date the pair
    is either unchanged or a purchase of [(initialCapital/12 * (1 - feeRate))
    / price] shares for a nominal [initialCapital/12], and a purchase happens
    only, and always, on the first trading day of a month of the window
    while the cash spent is below [initialCapital]; the cash spent never
    exceeds [initialCapital]. *)
Theorem dca_capital_and_cash :
  forall (df : list (Row Q)) (feeRate initialCapital : Q),
    (0 < initialCapital)%Q ->
    NoDup (map (@date Q) df) ->
    exists final,
      dca_loop df feeRate initialCapital = inr final /\
      length (DCA_col final) = length df /\
      forall i row, nth_error df i = Some row ->
        exists before after,
          dca_run i df feeRate initialCapital = inr before /\
          dca_run (S i) df feeRate initialCapital = inr after /\
          nth_error (DCA_col final) i =
            Some (Some (shares after * target row
                        + (initialCapital - cash_spent after))%Q) /\
          ((shares after = shares before /\ cash_spent after = cash_spent before) \/
           (shares after =
              (shares before + (initialCapital / 12 * (1 - feeRate)) / target row)%Q /\
            cash_spent after = (cash_spent before + initialCapital / 12)%Q /\
            (cash_spent before < initialCapital)%Q /\
            first_trading_day_of_month df i)) /\
          (first_trading_day_of_month df i ->
           (cash_spent before < initialCapital)%Q ->
           shares after =
             (shares before + (initialCapital / 12 * (1 - feeRate)) / target row)%Q /\
           cash_spent after = (cash_spent before + initialCapital / 12)%Q) /\
          (cash_spent after <= initialCapital)%Q.
Proof.
  intros df fee ic Hic Hnd.
  destruct (@dca_run_invariant _ _ df fee ic Hnd (length df) (Nat.le_refl _))
    as (final & Hfinal & Hlen & Hcol).
  exists final. split; [rewrite dca_loop_run; exact Hfinal|].
  split; [exact Hlen|].
  intros i row Hrow.
  assert (Hi : (i < length df)%nat)
    by (apply nth_error_Some; rewrite Hrow; discriminate).
  destruct (@dca_run_defined _ _ df fee ic i) as (before & Hbefore & _); [lia|].
  destruct (@dca_run_step _ _ df fee ic i row before Hrow Hbefore)
    as (r0 & j & Hafter & Hj & Hmonth & Hearlier).
  exists before. eexists. split; [exact Hbefore|]. split; [exact Hafter|].
  split; [|split; [|split]].
  - apply (Hcol i row _ Hi Hrow Hafter).
  - cbn [dca_next shares cash_spent].
    destruct (Date_eqb (date row) (date r0) && ltb (cash_spent before) ic) eqn:Buy.
    + right. apply andb_true_iff in Buy. destruct Buy as [Hd Hlt].
      apply Date_eqb_eq in Hd. apply exact_ltb_lt in Hlt.
      split; [reflexivity|]. split; [reflexivity|]. split; [exact Hlt|].
      assert (Hji : j = i).
      { apply (proj1 (NoDup_nth_error (map (@date Q) df)) Hnd).
        - rewrite length_map. apply nth_error_Some. rewrite Hj. discriminate.
        - rewrite !nth_error_map, Hj, Hrow. cbn [option_map]. congruence. }
      subst j. intros j' rj ri Hlt' Hrj Hri.
      rewrite Hrow in Hri. injection Hri as <-.
      apply (Hearlier j'); assumption.
    + left. split; reflexivity.
  - intros Hfirst Hlt.
    assert (Hji : j = i).
    { destruct (Nat.lt_trichotomy j i) as [Hlt'|[Heq|Hgt]]; [|exact Heq|].
      - exfalso. apply (Hfirst j r0 row Hlt' Hj Hrow). exact Hmonth.
      - exfalso. apply (Hearlier i row Hgt Hrow). reflexivity. }
    subst j. rewrite Hrow in Hj. injection Hj as <-.
    cbn [dca_next shares cash_spent]. rewrite Date_eqb_refl.
    replace (ltb (cash_spent before) ic) with true
      by (symmetry; apply exact_ltb_lt; exact Hlt).
    split; reflexivity.
  - apply (@dca_cash_bounded df fee ic Hic (S i)); [lia|exact Hafter].
Qed.

Lemma dca_capital_and_cash_witness :
  exists final,
    dca_loop sample_df (3 # 1000)%Q 10000%Q = inr final /\
    length (DCA_col final) = length sample_df.
Proof.
  destruct (@dca_capital_and_cash sample_df (3 # 1000)%Q 10000%Q
              eq_refl sample_df_dates_distinct) as (final & Hrun & Hlen & _).
  exists final. split; [exact Hrun|exact Hlen].
Defined.

(** ** The whole run *)

Lemma iloc_last_nth {A} (l : list A) (d : A) :
  l <> [] -> iloc_last l = inr (nth (length l - 1) l d).
Proof.
  intros H. destruct l as [|a l]; [congruence|].
  unfold iloc_last. apply getitem_nth. simpl. lia.
Qed.

Section Whole_run.
Context {num : Type} {Ar : Arith num}.
Variables (pad : bool) (df : list (Row num)) (trading_fees cap0 : num).

Local Abbreviation prices := (map (@target num) df).
Local Abbreviation cap :=
  (capital (rets pad prices) (Position df) (Trade (Position df)) trading_fees cap0).

(** On a non-empty window no step fails, and the result holds the three
    curves with the three percentages of lines 78-80. *)
Lemma backtest_defined :
  df <> [] ->
  exists dca d_last,
    dca_loop df trading_fees cap0 = inr dca /\
    length (DCA_col dca) = length df /\
    iloc_last (DCA_col dca) = inr d_last /\
    backtest pad df trading_fees cap0 =
    inr (mkResults
           (map (fun i => cap i) (seq 0 (length df)))
           (map (fun p => mul (div p (nth 0 prices zero)) cap0) prices)
           (DCA_col dca)
           (perf (cap (length df - 1)%nat) cap0)
           (perf (mul (div (nth (length df - 1) prices zero) (nth 0 prices zero)) cap0)
                 cap0)
           (option_map (fun d => perf d cap0) d_last)).
Proof.
  intros Hne.
  assert (Hn : (0 < length df)%nat) by (destruct df; [congruence|simpl; lia]).
  destruct (@dca_run_defined _ _ df trading_fees cap0 (length df) (Nat.le_refl _))
    as (dca & Hdca & Hlen).
  rewrite <- dca_loop_run in Hdca.
  assert (Hcol : DCA_col dca <> [])
    by (intros E; rewrite E in Hlen; simpl in Hlen; lia).
  exists dca, (nth (length (DCA_col dca) - 1) (DCA_col dca) None).
  split; [exact Hdca|]. split; [exact Hlen|].
  split; [apply (@iloc_last_nth _ _ None); exact Hcol|].
  unfold backtest.
  rewrite strat_path_capital;
    [|rewrite rets_length, length_map; reflexivity
     |unfold Position; apply length_map
     |rewrite Trade_length; unfold Position; apply length_map].
  cbn [bind ret]. unfold BuyHold.
  rewrite (getitem_nth prices zero) by (rewrite length_map; exact Hn).
  cbn [bind ret]. rewrite Hdca. cbn [bind ret].
  rewrite iloc_last_map_seq by exact Hn. cbn [bind ret].
  rewrite (@iloc_last_nth _ _ (mul (div zero (nth 0 prices zero)) cap0));
    [|intros E; apply map_eq_nil in E; apply map_eq_nil in E; exact (Hne E)].
  cbn [bind ret].
  rewrite (@iloc_last_nth _ _ None) by exact Hcol. cbn [bind ret].
  rewrite !length_map.
  rewrite (map_nth (fun p => mul (div p (nth 0 prices zero)) cap0) prices zero).
  reflexivity.
Qed.
End Whole_run.




(** ** Exact arithmetic: first and last values of the three curves *)

Lemma dca_first_day (r0 : Row Q) (rest : list (Row Q)) (fee cap0 : Q) :
  (0 < cap0)%Q ->
  exists st1,
    dca_run 1 (r0 :: rest) fee cap0 = inr st1 /\
    shares st1 = (0 + (cap0 / 12 * (1 - fee)) / target r0)%Q /\
    cash_spent st1 = (0 + cap0 / 12)%Q.
Proof.
  intros Hc.
  destruct (@dca_run_step _ _ (r0 :: rest) fee cap0 0 r0 (dca_init (r0 :: rest))
              eq_refl eq_refl) as (r & j & Hnext & Hj & _ & Hearlier).
  assert (Hj0 : j = 0%nat).
  { destruct j as [|j]; [reflexivity|].
    exfalso. apply (Hearlier 0%nat r0); [lia|reflexivity|reflexivity]. }
  subst j. injection Hj as <-.
  eexists. split; [exact Hnext|].
  cbn [dca_next shares cash_spent dca_init].
  rewrite Date_eqb_refl.
  replace (ltb zero cap0) with true
    by (symmetry; apply exact_ltb_lt; exact Hc).
  split; reflexivity.
Qed.

Lemma backtest_first_and_last (pad : bool) (df : list (Row Q)) (fee cap0 : Q) :
  df <> [] ->
  positive_prices (map (@target Q) df) ->
  NoDup (map (@date Q) df) ->
  (0 < cap0)%Q ->
  exists r s_last b_first b_last d_first d_last,
    backtest pad df fee cap0 = inr r /\
    nth_error (Strategy r) 0 = Some cap0 /\
    iloc_last (Strategy r) = inr s_last /\
    nth_error (BuyHold_col r) 0 = Some b_first /\
    iloc_last (BuyHold_col r) = inr b_last /\
    nth_error (DCA r) 0 = Some (Some d_first) /\
    iloc_last (DCA r) = inr (Some d_last) /\
    (b_first == cap0)%Q /\
    (d_first == cap0 - cap0 / 12 * fee)%Q /\
    perf_algo r = perf s_last cap0 /\
    perf_bh r = perf b_last cap0 /\
    perf_dca r = Some (perf d_last cap0).
Proof.
  intros Hne Hpos Hnd Hc.
  destruct (@backtest_defined _ _ pad df fee cap0 Hne)
    as (dca & d_last & Hdca & Hlen & Hlast & Hrun).
  destruct (@dca_run_invariant _ _ df fee cap0 Hnd (length df) (Nat.le_refl _))
    as (final & Hfinal & _ & Hcol).
  rewrite <- dca_loop_run, Hdca in Hfinal. injection Hfinal as <-.
  destruct df as [|r0 rest]; [congruence|].
  set (df := r0 :: rest) in *.
  assert (Hn : (0 < length df)%nat) by (simpl; lia).
  (* first day of the DCA column *)
  destruct (@dca_first_day r0 rest fee cap0 Hc) as (st1 & Hst1 & Hsh & Hcs).
  pose proof (Hcol 0%nat r0 st1 Hn eq_refl Hst1) as Hd0.
  (* last day of the DCA column *)
  destruct (nth_error df (length df - 1)) as [rl|] eqn:Hrl;
    [|apply nth_error_None in Hrl; lia].
  destruct (@dca_run_defined _ _ df fee cap0 (S (length df - 1)))
    as (stl & Hstl & _); [lia|].
  pose proof (Hcol (length df - 1)%nat rl stl ltac:(lia) Hrl Hstl) as Hdl.
  assert (Hlast' : d_last = Some (shares stl * target rl + (cap0 - cash_spent stl))%Q).
  { assert (Hcne : DCA_col dca <> [])
      by (intros E; rewrite E in Hlen; simpl in Hlen; lia).
    rewrite (@iloc_last_nth _ _ None Hcne) in Hlast.
    injection Hlast as <-. rewrite Hlen.
    apply nth_error_nth. exact Hdl. }
  subst d_last.
  eexists. exists (capital (rets pad (map (@target Q) df)) (Position df)
                           (Trade (Position df)) fee cap0 (length df - 1)).
  exists (target r0 / target r0 * cap0)%Q.
  exists (nth (length df - 1) (map (@target Q) df) zero / target r0 * cap0)%Q.
  do 2 eexists.
  split; [exact Hrun|].
  cbn [Strategy BuyHold_col DCA perf_algo perf_bh perf_dca option_map].
  split.
  { rewrite capital_path_nth by exact Hn. cbn [capital]. unfold apply_fee.
    rewrite Trade_head_0. reflexivity. }
  split; [apply iloc_last_map_seq; exact Hn|].
  split; [reflexivity|].
  split.
  { change (nth 0 (map (@target Q) df) zero) with (target r0).
    rewrite (@iloc_last_nth _ _ (mul (div zero (target r0)) cap0))
      by (subst df; discriminate).
    rewrite !length_map.
    rewrite (map_nth (fun p => mul (div p (target r0)) cap0)).
    reflexivity. }
  split; [exact Hd0|].
  split.
  { assert (Hcne : DCA_col dca <> [])
      by (intros E; rewrite E in Hlen; simpl in Hlen; lia).
    rewrite (@iloc_last_nth _ _ None Hcne), Hlen.
    f_equal. apply nth_error_nth. exact Hdl. }
  inversion Hpos as [|p0 ps Hp0 _]; subst.
  split; [field; lra|].
  split.
  { exact_arith. rewrite Hsh, Hcs. field. lra. }
  split; [reflexivity|]. split; reflexivity.
Qed.

(** C2 (as the code has it): on a valid input (non-empty window, distinct
    dates, positive prices, positive initial capital, any fee rate) the
    strategy curve and the buy-and-hold curve start at [initialCapital]; the
    DCA curve starts at [initialCapital - (initialCapital/12) * feeRate],
    because the first tranche is bought on the first day and its fee is
    already lost; it starts at [initialCapital] only when the fee rate is 0. *)
Theorem first_values_of_the_curves :
  forall (pad : bool) (df : list (Row Q)) (feeRate initialCapital : Q),
    df <> [] ->
    positive_prices (map (@target Q) df) ->
    NoDup (map (@date Q) df) ->
    (0 < initialCapital)%Q ->
    exists r s0 b0 d0,
      backtest pad df feeRate initialCapital = inr r /\
      nth_error (Strategy r) 0 = Some s0 /\
      nth_error (BuyHold_col r) 0 = Some b0 /\
      nth_error (DCA r) 0 = Some (Some d0) /\
      s0 = initialCapital /\
      (b0 == initialCapital)%Q /\
      (d0 == initialCapital - initialCapital / 12 * feeRate)%Q /\
      ((d0 == initialCapital)%Q <-> (feeRate == 0)%Q).
Proof.
  intros pad df fee ic Hne Hpos Hnd Hic.
  destruct (@backtest_first_and_last pad df fee ic Hne Hpos Hnd Hic)
    as (r & s_last & b0 & b_last & d0 & d_last
        & Hrun & Hs & _ & Hb & _ & Hd & _ & Hb0 & Hd0 & _).
  exists r, ic, b0, d0. repeat (split; [assumption || reflexivity|]).
  assert (Ht : (0 < ic / 12)%Q) by (apply Qlt_shift_div_l; lra).
  rewrite Hd0. split; intros H; nra.
Qed.

Lemma first_values_of_the_curves_witness :
  exists r s0 b0 d0,
    backtest true sample_df (3 # 1000)%Q 10000%Q = inr r /\
    nth_error (Strategy r) 0 = Some s0 /\
    nth_error (BuyHold_col r) 0 = Some b0 /\
    nth_error (DCA r) 0 = Some (Some d0) /\
    s0 = 10000%Q /\
    (b0 == 10000)%Q /\
    (d0 == 10000 - 10000 / 12 * (3 # 1000))%Q /\
    ((d0 == 10000)%Q <-> ((3 # 1000) == 0)%Q).
Proof.
  apply (@first_values_of_the_curves true sample_df (3 # 1000)%Q 10000%Q).
  - discriminate.
  - repeat constructor.
  - exact sample_df_dates_distinct.
  - reflexivity.
Defined.

(** C2 as worded fails for the DCA curve: with a fee of 0.3 % it starts at
    9997.5, in binary64 as in exact arithmetic. *)
Lemma dca_curve_starts_below_initial_capital :
  (exists r, backtest true one_day_df_binary64 (lit (3 # 1000)) initial_cap = inr r /\
             DCA r = [Some 9997.5%float]) /\
  (exists r d0, backtest true one_day_df (3 # 1000)%Q initial_cap = inr r /\
                nth_error (DCA r) 0 = Some (Some d0) /\
                (d0 == 9997.5)%Q /\ ~ (d0 == initial_cap)%Q).
Proof.
  split.
  - eexists. split; [vm_compute; reflexivity|reflexivity].
  - do 2 eexists. split; [vm_compute; reflexivity|].
    split; [reflexivity|]. split.
    + vm_compute. reflexivity.
    + vm_compute. discriminate.
Qed.

(** C3 (as the code has it): each reported percentage is
    [(curve.last / initialCapital - 1) * 100].  For the strategy and the
    buy-and-hold curves this is [(curve.last / curve.first - 1) * 100], their
    first value being [initialCapital]; for the DCA curve the divisor is
    [initialCapital] while the curve's first value is
    [initialCapital - (initialCapital/12) * feeRate]. *)
Theorem total_return_percentages :
  forall (pad : bool) (df : list (Row Q)) (feeRate initialCapital : Q),
    df <> [] ->
    positive_prices (map (@target Q) df) ->
    NoDup (map (@date Q) df) ->
    (0 < initialCapital)%Q ->
    exists r s_first s_last b_first b_last d_first d_last pd,
      backtest pad df feeRate initialCapital = inr r /\
      nth_error (Strategy r) 0 = Some s_first /\
      iloc_last (Strategy r) = inr s_last /\
      nth_error (BuyHold_col r) 0 = Some b_first /\
      iloc_last (BuyHold_col r) = inr b_last /\
      nth_error (DCA r) 0 = Some (Some d_first) /\
      iloc_last (DCA r) = inr (Some d_last) /\
      (perf_algo r == (s_last / s_first - 1) * 100)%Q /\
      (perf_bh r == (b_last / b_first - 1) * 100)%Q /\
      perf_dca r = Some pd /\
      (pd == (d_last / initialCapital - 1) * 100)%Q /\
      (d_first == initialCapital - initialCapital / 12 * feeRate)%Q.
Proof.
  intros pad df fee ic Hne Hpos Hnd Hic.
  destruct (@backtest_first_and_last pad df fee ic Hne Hpos Hnd Hic)
    as (r & s_last & b_first & b_last & d_first & d_last
        & Hrun & Hs & Hsl & Hb & Hbl & Hd & Hdl & Hb0 & Hd0 & Pa & Pb & Pd).
  exists r, ic, s_last, b_first, b_last, d_first, d_last, (perf d_last ic).
  repeat (split; [assumption|]).
  split; [rewrite Pa; unfold perf; exact_arith; reflexivity|].
  split; [rewrite Pb, Hb0; unfold perf; exact_arith; reflexivity|].
  split; [exact Pd|].
  split; [unfold perf; exact_arith; reflexivity|exact Hd0].
Qed.

Lemma total_return_percentages_witness :
  exists r s_first s_last b_first b_last d_first d_last pd,
    backtest true sample_df (3 # 1000)%Q 10000%Q = inr r /\
    nth_error (Strategy r) 0 = Some s_first /\
    iloc_last (Strategy r) = inr s_last /\
    nth_error (BuyHold_col r) 0 = Some b_first /\
    iloc_last (BuyHold_col r) = inr b_last /\
    nth_error (DCA r) 0 = Some (Some d_first) /\
    iloc_last (DCA r) = inr (Some d_last) /\
    (perf_algo r == (s_last / s_first - 1) * 100)%Q /\
    (perf_bh r == (b_last / b_first - 1) * 100)%Q /\
    perf_dca r = Some pd /\
    (pd == (d_last / 10000 - 1) * 100)%Q /\
    (d_first == 10000 - 10000 / 12 * (3 # 1000))%Q.
Proof.
  apply (@total_return_percentages true sample_df (3 # 1000)%Q 10000%Q).
  - discriminate.
  - repeat constructor.
  - exact sample_df_dates_distinct.
  - reflexivity.
Defined.

(** C3 as worded fails for the DCA curve: on a one-day window with a fee of
    0.3 % the curve's last and first values coincide, so the claimed
    percentage is 0, while the reported one is -0.025. *)
Lemma dca_percentage_not_relative_to_first_value :
  exists r d pd,
    backtest true one_day_df (3 # 1000)%Q initial_cap = inr r /\
    nth_error (DCA r) 0 = Some (Some d) /\
    iloc_last (DCA r) = inr (Some d) /\
    perf_dca r = Some pd /\
    (pd == -0.025)%Q /\
    ~ (pd == (d / d - 1) * 100)%Q.
Proof.
  do 3 eexists. split; [vm_compute; reflexivity|].
  split; [reflexivity|]. split; [reflexivity|]. split; [reflexivity|].
  split.
  - vm_compute. reflexivity.
  - vm_compute. discriminate.
Qed.

(** In binary64 arithmetic the twelve tranches of [initial_cap / 12] add up to
    [initial_cap] exactly, so the guard [cash_spent < initial_cap] closes
    after the twelfth purchase there too. *)
Lemma twelve_tranches_binary64 :
  Nat.iter 12 (fun c : float => add c (monthly_budget initial_cap)) zero = initial_cap /\
  ltb (Nat.iter 11 (fun c : float => add c (monthly_budget initial_cap)) zero)
      initial_cap = true.
Proof. split; vm_compute; reflexivity. Qed.

(** * Further properties of the script *)

(** ** The run and the empty window *)

(** The run raises (IndexError, at line 64) exactly when the window is empty;
    on every other window, whatever the arithmetic, the fee rate and the
    initial capital, it returns its result. *)
Theorem backtest_fails_iff_window_empty :
  forall (num : Type) (Ar : Arith num) (pad : bool) (df : list (Row num)) (fee cap0 : num),
    (backtest pad df fee cap0 = inl IndexError <-> df = []) /\
    ((exists r, backtest pad df fee cap0 = inr r) <-> df <> []).
Proof.
  intros num Ar pad df fee cap0.
  destruct df as [|r0 rest].
  - split; split; try reflexivity; try congruence.
    intros [r H]. discriminate.
  - destruct (@backtest_defined _ _ pad (r0 :: rest) fee cap0 ltac:(discriminate))
      as (dca & d_last & _ & _ & _ & Hrun).
    split; split; try discriminate.
    + rewrite Hrun. discriminate.
    + intros _. eexists. exact Hrun.
Qed.

(** ** The signal and its transitions, in any arithmetic *)

Lemma Trade_binary (position : list Z) :
  Forall (fun p => p = 0 \/ p = 1) position ->
  Forall (fun t => t = 0 \/ t = 1) (Trade position).
Proof.
  intros Hbin. rewrite Forall_forall in *. intros t Hin.
  destruct (In_nth_error _ _ Hin) as [i Hi].
  destruct i as [|j].
  - left. apply Trade_nth_0 in Hi. exact Hi.
  - assert (Hlt : (S j < length position)%nat).
    { rewrite <- Trade_length. apply nth_error_Some. rewrite Hi. discriminate. }
    destruct (nth_error position j) as [p|] eqn:Hp;
      [|apply nth_error_None in Hp; lia].
    destruct (nth_error position (S j)) as [q|] eqn:Hq;
      [|apply nth_error_None in Hq; lia].
    rewrite (Trade_nth_S _ _ Hp Hq) in Hi. injection Hi as <-.
    assert (Bp : p = 0 \/ p = 1) by (apply Hbin; eapply nth_error_In; eassumption).
    assert (Bq : q = 0 \/ q = 1) by (apply Hbin; eapply nth_error_In; eassumption).
    lia.
Qed.

(** Whatever the arithmetic (binary64 included) and whatever the two input
    columns hold, line 44 produces only 0 and 1, one per row, and line 45
    turns them into a column of 0 and 1 of the same length whose first entry
    is 0: the loop's test [== 1] therefore sees every non-zero entry. *)
Theorem signal_and_transitions_are_binary :
  forall (num : Type) (Ar : Arith num) (df : list (Row num)),
    length (Position df) = length df /\
    Forall (fun p => p = 0 \/ p = 1) (Position df) /\
    length (Trade (Position df)) = length df /\
    Forall (fun t => t = 0 \/ t = 1) (Trade (Position df)) /\
    nth 0 (Trade (Position df)) 0 = 0.
Proof.
  intros num Ar df.
  assert (Hlen : length (Position df) = length df) by apply length_map.
  assert (Hbin : Forall (fun p => p = 0 \/ p = 1) (Position df)).
  { unfold Position. rewrite Forall_map. apply Forall_forall. intros r _.
    destruct (gt (Guide_Return_Future r) zero && gt (Corr r) (lit 0.2%Q)); auto. }
  split; [exact Hlen|]. split; [exact Hbin|].
  split; [rewrite Trade_length; exact Hlen|].
  split; [apply Trade_binary; exact Hbin|apply Trade_head_0].
Qed.

(** ** A signal that never changes *)

Lemma with_previous_diff_constant (c : Z) (n : nat) :
  with_previous (fun x prev => x - prev) c (repeat c n) = repeat (Some 0) n.
Proof.
  induction n as [|n IH]; simpl; [reflexivity|].
  rewrite IH, Z.sub_diag. reflexivity.
Qed.

Lemma Trade_constant (c : Z) (n : nat) : Trade (repeat c n) = repeat 0 n.
Proof.
  destruct n as [|n]; [reflexivity|].
  change (repeat c (S n)) with (c :: repeat c n).
  unfold Trade, abs, diff, fillna, shifted.
  rewrite with_previous_diff_constant. simpl.
  f_equal. induction n as [|n IH]; simpl; [reflexivity|]. rewrite IH. reflexivity.
Qed.

Lemma map_seq_constant {A} (f : nat -> A) (c : A) (n : nat) :
  forall a, (forall i, f i = c) -> map f (seq a n) = repeat c n.
Proof.
  induction n as [|n IH]; intros a H; simpl; [reflexivity|].
  rewrite H, (IH (S a) H). reflexivity.
Qed.

(** With a signal that is 0 on every day, no return and no fee is ever
    applied: the strategy curve is [initial_cap] on every day, exactly, in any
    arithmetic, for any prices and any fee rate. *)
Theorem strategy_flat_when_never_in_position :
  forall (num : Type) (Ar : Arith num) (pad : bool) (prices : list num) (position : list Z)
         (fee cap0 : num),
    length position = length prices ->
    Forall (fun p => p = 0) position ->
    strat_path (length prices) (rets pad prices) position (Trade position) fee cap0
      = inr (repeat cap0 (length prices)).
Proof.
  intros num Ar pad prices position fee cap0 Hlen Hzero.
  assert (Hz : Forall (eq 0) position)
    by (eapply Forall_impl; [|exact Hzero]; intros p Hp; symmetry; exact Hp).
  apply Forall_eq_repeat in Hz. rewrite Hlen in Hz.
  rewrite Hz, Trade_constant.
  rewrite strat_path_capital;
    [|apply rets_length|apply repeat_length|apply repeat_length].
  f_equal. apply map_seq_constant. intros i.
  induction i as [|j IH]; simpl capital; unfold apply_fee, apply_return.
  - rewrite nth_repeat. reflexivity.
  - rewrite !nth_repeat, IH.
    change (0 =? 1) with false. rewrite andb_false_r. reflexivity.
Qed.

Lemma strategy_flat_when_never_in_position_witness :
  strat_path 3 (rets true [100; 90; 120]%Q) [0; 0; 0] (Trade [0; 0; 0]) (1 # 10)%Q 10000%Q
    = inr [10000; 10000; 10000]%Q.
Proof.
  apply (@strategy_flat_when_never_in_position Q exact true [100; 90; 120]%Q [0; 0; 0]
           (1 # 10)%Q 10000%Q).
  - reflexivity.
  - repeat constructor.
Defined.

(** ** Exact arithmetic: the strategy curve day by day *)

Lemma rets_nth_exact (pad : bool) (prices : list Q) (j : nat) :
  (S j < length prices)%nat ->
  nth (S j) (rets pad prices) 0%Q = (nth (S j) prices 0 / nth j prices 0 - 1)%Q.
Proof.
  intros Hlt.
  apply nth_error_nth.
  rewrite (@rets_nth_S Q exact pad prices j (nth j prices 0%Q) (nth (S j) prices 0%Q)).
  - reflexivity.
  - apply Forall_forall. intros p _. reflexivity.
  - apply nth_error_nth'. lia.
  - apply nth_error_nth'. lia.
Qed.

Lemma nth_repeat_inside {A} (a d : A) (n i : nat) :
  (i < n)%nat -> nth i (repeat a n) d = a.
Proof.
  revert i. induction n as [|n IH]; intros i Hi; [lia|].
  destruct i as [|i]; simpl; [reflexivity|apply IH; lia].
Qed.

Lemma map_nth_seq {A} (l : list A) (d : A) :
  map (fun i => nth i l d) (seq 0 (length l)) = l.
Proof.
  apply (nth_ext _ _ d d).
  - rewrite length_map, length_seq. reflexivity.
  - intros i Hi. rewrite length_map, length_seq in Hi.
    rewrite (nth_indep _ d (nth 0 l d))
      by (rewrite length_map, length_seq; exact Hi).
    rewrite (map_nth (fun i => nth i l d) (seq 0 (length l)) 0%nat).
    rewrite seq_nth by exact Hi. reflexivity.
Qed.

Lemma Forall2_map_seq_below {A} (R : A -> A -> Prop) (f g : nat -> A) (n : nat) :
  (forall i, (i < n)%nat -> R (f i) (g i)) ->
  Forall2 R (map f (seq 0 n)) (map g (seq 0 n)).
Proof.
  intros H.
  assert (G : forall l, (forall i, In i l -> (i < n)%nat) ->
                        Forall2 R (map f l) (map g l)).
  { induction l as [|a l IH]; intros Hl; simpl; constructor.
    - apply H, Hl. left. reflexivity.
    - apply IH. intros i Hi. apply Hl. right. exact Hi. }
  apply G. intros i Hi. apply in_seq in Hi. lia.
Qed.

Lemma positive_prices_nth (prices : list Q) (i : nat) :
  positive_prices prices -> (i < length prices)%nat -> (0 < nth i prices 0)%Q.
Proof.
  intros Hpos Hi. unfold positive_prices in Hpos.
  rewrite Forall_forall in Hpos. apply Hpos. apply nth_In. exact Hi.
Qed.

(** A position held on every day from the first is never charged a fee (the
    first day is not a transition) and, in exact arithmetic, the strategy
    curve is the buy-and-hold curve, day by day, whatever the fee rate. *)
Theorem always_in_position_is_buy_and_hold :
  forall (pad : bool) (prices : list Q) (position : list Z) (fee cap0 : Q),
    prices <> [] ->
    positive_prices prices ->
    length position = length prices ->
    Forall (fun p => p = 1) position ->
    exists path bh,
      strat_path (length prices) (rets pad prices) position (Trade position) fee cap0
        = inr path /\
      BuyHold prices cap0 = inr bh /\
      Forall2 Qeq path bh.
Proof.
  intros pad prices position fee cap0 Hne Hpos Hlen Hone.
  assert (Hz : Forall (eq 1) position)
    by (eapply Forall_impl; [|exact Hone]; intros p Hp; symmetry; exact Hp).
  apply Forall_eq_repeat in Hz. rewrite Hlen in Hz.
  assert (Hn : (0 < length prices)%nat)
    by (destruct prices; [congruence|simpl; lia]).
  do 2 eexists. split; [|split].
  - rewrite Hz, Trade_constant.
    apply strat_path_capital;
      [apply rets_length|apply repeat_length|apply repeat_length].
  - unfold BuyHold. rewrite (getitem_nth prices 0%Q) by exact Hn. reflexivity.
  - cbn [bind ret].
    set (g := fun p : Q => mul (div p (nth 0 prices 0%Q)) cap0).
    assert (Hg : map g prices =
                 map (fun i => g (nth i prices 0%Q)) (seq 0 (length prices)))
      by (rewrite <- (map_map (fun i => nth i prices 0%Q) g), map_nth_seq;
          reflexivity).
    rewrite Hg. subst g. cbv beta.
    apply Forall2_map_seq_below. intros i Hi.
    pose proof (positive_prices_nth Hpos Hn) as H0.
    induction i as [|j IH].
    + simpl capital. unfold apply_fee. rewrite nth_repeat.
      change (0 =? 1) with false. exact_arith. field. lra.
    + simpl capital. unfold apply_fee, apply_return.
      rewrite nth_repeat. change (0 =? 1) with false.
      replace (S j - 1)%nat with j by lia.
      rewrite (nth_repeat_inside 1 0) by lia.
      change ((0 <? S j)%nat && (1 =? 1)) with true. cbv iota.
      exact_arith. rewrite IH by lia.
      rewrite rets_nth_exact by exact Hi.
      pose proof (@positive_prices_nth prices j Hpos ltac:(lia)) as Hj.
      field. split; lra.
Qed.

Lemma always_in_position_is_buy_and_hold_witness :
  exists path bh,
    strat_path 3 (rets true [100; 90; 120]%Q) [1; 1; 1] (Trade [1; 1; 1]) (1 # 10)%Q 10000%Q
      = inr path /\
    BuyHold [100; 90; 120]%Q 10000%Q = inr bh /\
    Forall2 Qeq path bh.
Proof.
  apply (@always_in_position_is_buy_and_hold true [100; 90; 120]%Q [1; 1; 1]
           (1 # 10)%Q 10000%Q).
  - discriminate.
  - repeat constructor.
  - reflexivity.
  - repeat constructor.
Defined.

Lemma with_previous_growth_pos (s : list Q) :
  forall prev, (0 < prev)%Q -> positive_prices s ->
    Forall (fun r => (0 < 1 + r)%Q)
           (fillna isnan zero (with_previous (fun x p => sub (div x p) one) prev s)).
Proof.
  induction s as [|x s IH]; intros prev Hprev Hs; [constructor|].
  inversion Hs as [|? ? Hx Hrest]; subst.
  simpl. constructor; [|apply IH; assumption].
  exact_arith.
  assert (H : (0 < x / prev)%Q) by (apply Qlt_shift_div_l; lra).
  lra.
Qed.

Lemma rets_growth_pos (pad : bool) (prices : list Q) (i : nat) :
  positive_prices prices -> (0 < 1 + nth i (rets pad prices) 0)%Q.
Proof.
  intros Hpos.
  assert (HF : Forall (fun r => (0 < 1 + r)%Q) (rets pad prices)).
  { rewrite rets_exact. unfold shifted. destruct prices as [|x s]; [constructor|].
    inversion Hpos; subst. simpl. constructor.
    - exact_arith. lra.
    - apply with_previous_growth_pos; assumption. }
  destruct (Nat.lt_ge_cases i (length (rets pad prices))) as [Hi|Hi].
  - rewrite Forall_forall in HF. apply HF. apply nth_In. exact Hi.
  - rewrite nth_overflow by exact Hi. lra.
Qed.

(** With positive prices, a positive initial capital and a fee rate in
    [0,1), the strategy capital is strictly positive on every day (exact
    arithmetic): each day multiplies it by positive factors only. *)
Theorem strategy_capital_stays_positive :
  forall (pad : bool) (prices : list Q) (position trade : list Z) (fee cap0 : Q),
    positive_prices prices ->
    length position = length prices ->
    length trade = length prices ->
    (0 < cap0)%Q -> (0 <= fee)%Q -> (fee < 1)%Q ->
    exists path,
      strat_path (length prices) (rets pad prices) position trade fee cap0 = inr path /\
      Forall (fun c => (0 < c)%Q) path.
Proof.
  intros pad prices position trade fee cap0 Hpos Hp Ht Hc Hf0 Hf1.
  eexists. split.
  - apply strat_path_capital; [apply rets_length|assumption|assumption].
  - rewrite Forall_map. apply Forall_forall. intros i _.
    induction i as [|j IH].
    + simpl. unfold apply_fee. exact_arith.
      destruct (nth 0 trade 0 =? 1); nra.
    + simpl capital. unfold apply_fee, apply_return. exact_arith.
      pose proof (@rets_growth_pos pad prices (S j) Hpos) as Hg.
      set (g := (1 + nth (S j) (rets pad prices) 0)%Q) in *.
      set (c := capital (rets pad prices) position trade fee cap0 j) in *.
      assert (G : (0 < c * g)%Q) by nra.
      destruct ((0 <? S j)%nat && (nth (S j - 1) position 0 =? 1));
        destruct (nth (S j) trade 0 =? 1); nra.
Qed.

Lemma strategy_capital_stays_positive_witness :
  exists path,
    strat_path 4 (rets true [100; 100; 110; 110]%Q) [0; 1; 1; 0] [0; 1; 0; 1]
               (1 # 10)%Q 10000%Q = inr path /\
    Forall (fun c => (0 < c)%Q) path.
Proof.
  apply (@strategy_capital_stays_positive true [100; 100; 110; 110]%Q
           [0; 1; 1; 0] [0; 1; 0; 1] (1 # 10)%Q 10000%Q).
  - repeat constructor.
  - reflexivity.
  - reflexivity.
  - reflexivity.
  - discriminate.
  - reflexivity.
Defined.

(** On every day [i], for any trade-event series, the strategy capital is, in
    exact arithmetic, [initial_cap] times the growth factors of the days held
    so far times [(1 - fee)] to the number of days flagged so far: fees and
    returns commute, and a fee is paid once per flagged day. *)
Theorem strategy_closed_form_every_day :
  forall (pad : bool) (prices : list Q) (position trade : list Z) (fee cap0 : Q),
    length position = length prices ->
    length trade = length prices ->
    exists path,
      strat_path (length prices) (rets pad prices) position trade fee cap0 = inr path /\
      forall i, (i < length prices)%nat ->
        exists c, nth_error path i = Some c /\
                  (c == cap0 * productOfDailyGrowth (S i) (rets pad prices) position
                             * (1 - fee) ^ Z.of_nat (flagged (S i) trade))%Q.
Proof.
  intros pad prices position trade fee cap0 Hp Ht.
  eexists. split.
  - apply strat_path_capital; [apply rets_length|assumption|assumption].
  - intros i Hi. eexists. split.
    + apply capital_path_nth. exact Hi.
    + apply capital_closed_form.
Qed.

Lemma strategy_closed_form_every_day_witness :
  exists path,
    strat_path 4 (rets true [100; 100; 110; 110]%Q) [0; 1; 1; 0] [0; 1; 0; 1]
               (1 # 10)%Q 10000%Q = inr path /\
    length path = 4%nat.
Proof.
  destruct (@strategy_closed_form_every_day true [100; 100; 110; 110]%Q
              [0; 1; 1; 0] [0; 1; 0; 1] (1 # 10)%Q 10000%Q eq_refl eq_refl)
    as (path & Hrun & _).
  exists path. split; [exact Hrun|].
  injection Hrun as <-. reflexivity.
Defined.

(** ** Exact arithmetic: the buy-and-hold percentage *)

(** The buy-and-hold percentage reported by the run depends on the first and
    the last price only: it is [(last / first - 1) * 100], whatever the fee
    rate and the (non-zero) initial capital. *)
Theorem buy_and_hold_percentage_from_prices :
  forall (pad : bool) (df : list (Row Q)) (fee cap0 : Q),
    df <> [] ->
    positive_prices (map (@target Q) df) ->
    ~ (cap0 == 0)%Q ->
    exists r p_first p_last,
      backtest pad df fee cap0 = inr r /\
      nth_error (map (@target Q) df) 0 = Some p_first /\
      iloc_last (map (@target Q) df) = inr p_last /\
      (perf_bh r == (p_last / p_first - 1) * 100)%Q.
Proof.
  intros pad df fee cap0 Hne Hpos Hc.
  destruct (@backtest_defined _ _ pad df fee cap0 Hne)
    as (dca & d_last & _ & _ & _ & Hrun).
  assert (Hn : (0 < length (map (@target Q) df))%nat)
    by (rewrite length_map; destruct df; [congruence|simpl; lia]).
  eexists. exists (nth 0 (map (@target Q) df) 0%Q).
  exists (nth (length df - 1) (map (@target Q) df) 0%Q).
  split; [exact Hrun|]. split; [apply nth_error_nth'; exact Hn|]. split.
  - rewrite (@iloc_last_nth _ _ 0%Q)
      by (intros E; rewrite E in Hn; simpl in Hn; lia).
    rewrite length_map. reflexivity.
  - cbn [perf_bh]. unfold perf. exact_arith.
    set (q := (nth (length df - 1) (map (@target Q) df) 0
               / nth 0 (map (@target Q) df) 0)%Q).
    field. exact Hc.
Qed.

Lemma buy_and_hold_percentage_from_prices_witness :
  exists r p_first p_last,
    backtest true sample_df (3 # 1000)%Q 10000%Q = inr r /\
    nth_error (map (@target Q) sample_df) 0 = Some p_first /\
    iloc_last (map (@target Q) sample_df) = inr p_last /\
    (perf_bh r == (p_last / p_first - 1) * 100)%Q.
Proof.
  apply (@buy_and_hold_percentage_from_prices true sample_df (3 # 1000)%Q 10000%Q).
  - discriminate.
  - repeat constructor.
  - discriminate.
Defined.

(** ** Exact arithmetic: the DCA curve under a constant price *)

Lemma dca_shares_at_constant_price (df : list (Row Q)) (fee cap0 p : Q) :
  ~ (p == 0)%Q ->
  Forall (fun r => target r = p) df ->
  forall k st, (k <= length df)%nat -> dca_run k df fee cap0 = inr st ->
    (shares st * p == cash_spent st * (1 - fee))%Q.
Proof.
  intros Hp Hconst. induction k as [|k IH]; intros st Hk Hrun.
  - injection Hrun as <-. unfold dca_init. cbn [shares cash_spent].
    exact_arith. ring.
  - destruct (@dca_run_defined _ _ df fee cap0 k) as (st0 & Hrun0 & _); [lia|].
    specialize (IH st0 ltac:(lia) Hrun0).
    destruct (nth_error df k) as [row|] eqn:Hrow;
      [|apply nth_error_None in Hrow; lia].
    destruct (@dca_run_step _ _ df fee cap0 k row st0 Hrow Hrun0)
      as (r0 & j & Hnext & _).
    rewrite Hnext in Hrun. injection Hrun as <-.
    assert (Ht : target row = p).
    { rewrite Forall_forall in Hconst. apply Hconst.
      eapply nth_error_In. exact Hrow. }
    cbn [dca_next shares cash_spent]. rewrite Ht.
    destruct (Date_eqb (date row) (date r0) && ltb (cash_spent st0) cap0).
    + unfold monthly_budget. exact_arith.
      setoid_replace ((shares st0 + cap0 / 12 * (1 - fee) / p) * p)%Q
        with (shares st0 * p + cap0 / 12 * (1 - fee))%Q by (field; exact Hp).
      rewrite IH. ring.
    + exact IH.
Qed.

(** When the price is the same on every day of the window, the DCA value of
    each day is [initial_cap - fee * cash_spent] (exact arithmetic): the cash
    not yet invested counts at par and the invested part has lost its fee
    only; with a fee rate of 0 the curve is flat at [initial_cap]. *)
Theorem dca_value_at_constant_price :
  forall (df : list (Row Q)) (fee cap0 p : Q),
    NoDup (map (@date Q) df) ->
    ~ (p == 0)%Q ->
    Forall (fun r => target r = p) df ->
    exists final,
      dca_loop df fee cap0 = inr final /\
      forall i, (i < length df)%nat ->
        exists st d,
          dca_run (S i) df fee cap0 = inr st /\
          nth_error (DCA_col final) i = Some (Some d) /\
          (d == cap0 - fee * cash_spent st)%Q /\
          ((fee == 0)%Q -> (d == cap0)%Q).
Proof.
  intros df fee cap0 p Hnd Hp Hconst.
  destruct (@dca_run_invariant _ _ df fee cap0 Hnd (length df) (Nat.le_refl _))
    as (final & Hfinal & _ & Hcol).
  exists final. split; [rewrite dca_loop_run; exact Hfinal|].
  intros i Hi.
  destruct (@dca_run_defined _ _ df fee cap0 (S i)) as (st & Hst & _); [lia|].
  destruct (nth_error df i) as [row|] eqn:Hrow;
    [|apply nth_error_None in Hrow; lia].
  assert (Ht : target row = p).
  { rewrite Forall_forall in Hconst. apply Hconst.
    eapply nth_error_In. exact Hrow. }
  pose proof (Hcol i row st Hi Hrow Hst) as Hd. rewrite Ht in Hd.
  pose proof (@dca_shares_at_constant_price df fee cap0 p Hp Hconst (S i) st
                ltac:(lia) Hst) as Hsh.
  exists st. eexists. split; [exact Hst|]. split; [exact Hd|].
  exact_arith.
  assert (Hval : (shares st * p + (cap0 - cash_spent st)
                  == cap0 - fee * cash_spent st)%Q)
    by (rewrite Hsh; ring).
  split; [exact Hval|].
  intros Hf. rewrite Hval, Hf. ring.
Qed.

Lemma dca_value_at_constant_price_witness :
  exists final,
    dca_loop [ mkRow jan02 50%Q None None; mkRow feb01 50%Q None None ]
             (3 # 1000)%Q 10000%Q = inr final /\
    length (DCA_col final) = 2%nat.
Proof.
  assert (Hnd : NoDup (map (@date Q)
                  [ mkRow jan02 50%Q None None; mkRow feb01 50%Q None None ]))
    by (repeat constructor; simpl; intuition discriminate).
  destruct (@dca_value_at_constant_price
              [ mkRow jan02 50%Q None None; mkRow feb01 50%Q None None ]
              (3 # 1000)%Q 10000%Q 50%Q Hnd ltac:(discriminate)
              ltac:(repeat constructor)) as (final & Hrun & _).
  exists final. split; [exact Hrun|].
  injection Hrun as <-. reflexivity.
Defined.

(** ** Exact arithmetic: one tranche per month of the window *)

Lemma existsb_eqb_In (m : Z) (l : list Z) : existsb (Z.eqb m) l = true <-> In m l.
Proof.
  rewrite existsb_exists. split.
  - intros (x & Hx & E). apply Z.eqb_eq in E. subst. exact Hx.
  - intros H. exists m. split; [exact H|apply Z.eqb_refl].
Qed.

Lemma existsb_eqb_same (m : Z) (l1 l2 : list Z) :
  (In m l1 <-> In m l2) -> existsb (Z.eqb m) l1 = existsb (Z.eqb m) l2.
Proof.
  intros H.
  destruct (existsb (Z.eqb m) l1) eqn:E1; destruct (existsb (Z.eqb m) l2) eqn:E2;
    try reflexivity.
  - apply existsb_eqb_In in E1. apply H in E1. apply existsb_eqb_In in E1. congruence.
  - apply existsb_eqb_In in E2. apply H in E2. apply existsb_eqb_In in E2. congruence.
Qed.

Lemma count_new_months_snoc (l : list Z) (m : Z) :
  forall seen,
    count_new_months seen (l ++ [m]) =
    (count_new_months seen l + if existsb (Z.eqb m) (seen ++ l) then 0 else 1)%nat.
Proof.
  induction l as [|a l IH]; intros seen; simpl.
  - rewrite app_nil_r. destruct (existsb (Z.eqb m) seen); reflexivity.
  - destruct (existsb (Z.eqb a) seen) eqn:Ea.
    + rewrite IH. f_equal.
      rewrite (@existsb_eqb_same m (seen ++ a :: l) (seen ++ l)); [reflexivity|].
      apply existsb_eqb_In in Ea.
      rewrite !in_app_iff. simpl. split; [|tauto].
      intros [H|[H|H]]; subst; tauto.
    + rewrite IH. simpl. f_equal. f_equal.
      rewrite (@existsb_eqb_same m (seen ++ a :: l) (a :: seen ++ l)); [reflexivity|].
      rewrite !in_app_iff. simpl. rewrite in_app_iff. tauto.
Qed.

(** The date test of line 72 at row [k] of a window with distinct dates holds
    exactly when no earlier row shows the month of row [k]. *)
Lemma date_test_iff_new_month {num} {Ar : Arith num} (df : list (Row num))
    (k j : nat) (row r0 : Row num) :
  NoDup (map (@date num) df) ->
  nth_error df k = Some row ->
  nth_error df j = Some r0 ->
  month (date r0) = month (date row) ->
  (forall i y, (i < j)%nat -> nth_error df i = Some y ->
               month (date y) <> month (date row)) ->
  Date_eqb (date row) (date r0) =
  negb (existsb (Z.eqb (month (date row)))
                (map (fun r => month (date r)) (firstn k df))).
Proof.
  intros Hnd Hrow Hj Hmonth Hearlier.
  assert (Hjk : (j <= k)%nat).
  { destruct (Nat.le_gt_cases j k) as [H|H]; [exact H|].
    exfalso. apply (Hearlier k row H Hrow). reflexivity. }
  destruct (Nat.eq_dec j k) as [->|Hne].
  - rewrite Hrow in Hj. injection Hj as <-. rewrite Date_eqb_refl.
    symmetry. apply negb_true_iff.
    destruct (existsb _ _) eqn:E; [|reflexivity].
    exfalso. apply existsb_eqb_In in E. apply in_map_iff in E.
    destruct E as (y & Hy & Hin).
    destruct (In_nth_error _ _ Hin) as [i Hi].
    assert (Hik : (i < k)%nat).
    { assert (i < length (firstn k df))%nat
        by (apply nth_error_Some; rewrite Hi; discriminate).
      rewrite length_firstn in H. lia. }
    rewrite nth_error_firstn in Hi.
    destruct (Nat.ltb_spec i k); [|lia].
    apply (Hearlier i y Hik Hi). exact Hy.
  - assert (Hlt : (j < k)%nat) by lia.
    replace (Date_eqb (date row) (date r0)) with false.
    + symmetry. apply negb_false_iff. apply existsb_eqb_In.
      apply in_map_iff. exists r0. split; [exact Hmonth|].
      apply (nth_error_In _ j). rewrite nth_error_firstn.
      destruct (Nat.ltb_spec j k); [exact Hj|lia].
    + symmetry. destruct (Date_eqb (date row) (date r0)) eqn:E; [|reflexivity].
      exfalso. apply Date_eqb_eq in E. apply Hne.
      apply (proj1 (NoDup_nth_error (map (@date num) df)) Hnd).
      * rewrite length_map. apply nth_error_Some. rewrite Hj. discriminate.
      * rewrite !nth_error_map, Hj, Hrow. cbn [option_map]. congruence.
Qed.

Lemma months_in_window_S {num} (df : list (Row num)) (k : nat) (row : Row num) :
  nth_error df k = Some row ->
  months_in_window (firstn (S k) df) =
  (months_in_window (firstn k df) +
   if existsb (Z.eqb (month (date row)))
              (map (fun r => month (date r)) (firstn k df))
   then 0 else 1)%nat.
Proof.
  intros Hrow. unfold months_in_window.
  rewrite (firstn_S_nth_error _ _ Hrow), map_app. cbn [map].
  rewrite count_new_months_snoc. reflexivity.
Qed.

Lemma dca_cash_counts_months (df : list (Row Q)) (fee cap0 : Q) :
  (0 < cap0)%Q ->
  NoDup (map (@date Q) df) ->
  forall k st, (k <= length df)%nat -> dca_run k df fee cap0 = inr st ->
    (cash_spent st ==
     inject_Z (Z.of_nat (Nat.min 12 (months_in_window (firstn k df)))) * (cap0 / 12))%Q.
Proof.
  intros Hc Hnd. induction k as [|k IH]; intros st Hk Hrun.
  - injection Hrun as <-. unfold dca_init. cbn [cash_spent]. exact_arith.
    simpl. ring.
  - destruct (@dca_run_defined _ _ df fee cap0 k) as (st0 & Hrun0 & _); [lia|].
    specialize (IH st0 ltac:(lia) Hrun0).
    destruct (nth_error df k) as [row|] eqn:Hrow;
      [|apply nth_error_None in Hrow; lia].
    destruct (@dca_run_step _ _ df fee cap0 k row st0 Hrow Hrun0)
      as (r0 & j & Hnext & Hj & Hmonth & Hearlier).
    rewrite Hnext in Hrun. injection Hrun as <-.
    rewrite (@months_in_window_S _ df k row Hrow).
    rewrite (@date_test_iff_new_month _ _ df k j row r0 Hnd Hrow Hj Hmonth Hearlier).
    cbn [dca_next cash_spent].
    set (c := months_in_window (firstn k df)) in *.
    assert (Ht : (0 < cap0 / 12)%Q) by (apply Qlt_shift_div_l; lra).
    assert (H12 : (cap0 == 12 * (cap0 / 12))%Q) by field.
    destruct (existsb _ _); cbn [negb andb].
    + rewrite IH, Nat.add_0_r. reflexivity.
    + destruct (ltb (cash_spent st0) cap0) eqn:Hlt.
      * apply exact_ltb_lt in Hlt.
        assert (Hq : (inject_Z (Z.of_nat (Nat.min 12 c)) < 12)%Q) by nra.
        change 12%Q with (inject_Z 12) in Hq. rewrite <- Zlt_Qlt in Hq.
        replace (Nat.min 12 (c + 1)) with (S (Nat.min 12 c)) by lia.
        unfold monthly_budget. exact_arith.
        rewrite IH, Nat2Z.inj_succ. unfold Z.succ. rewrite inject_Z_plus.
        change (inject_Z 1) with 1%Q. ring.
      * assert (Hge : ~ (cash_spent st0 < cap0)%Q)
          by (intros H; apply exact_ltb_lt in H; congruence).
        assert (Hq : ~ (inject_Z (Z.of_nat (Nat.min 12 c)) < 12)%Q) by nra.
        change 12%Q with (inject_Z 12) in Hq. rewrite <- Zlt_Qlt in Hq.
        replace (Nat.min 12 (c + 1)) with (Nat.min 12 c) by lia.
        exact IH.
Qed.

(** On a window with distinct dates and a positive initial capital, the cash
    the DCA loop has spent at the end is one tranche [initial_cap / 12] per
    distinct month number seen in the window, capped at twelve tranches
    (exact arithmetic); it depends neither on the prices nor on the fee. *)
Theorem dca_spends_one_tranche_per_month :
  forall (df : list (Row Q)) (fee cap0 : Q),
    (0 < cap0)%Q ->
    NoDup (map (@date Q) df) ->
    exists final,
      dca_loop df fee cap0 = inr final /\
      (cash_spent final ==
       inject_Z (Z.of_nat (Nat.min 12 (months_in_window df))) * (cap0 / 12))%Q.
Proof.
  intros df fee cap0 Hc Hnd.
  destruct (@dca_run_defined _ _ df fee cap0 (length df) (Nat.le_refl _))
    as (final & Hfinal & _).
  exists final. split; [rewrite dca_loop_run; exact Hfinal|].
  pose proof (@dca_cash_counts_months df fee cap0 Hc Hnd (length df) final
                (Nat.le_refl _) Hfinal) as H.
  rewrite firstn_all in H. exact H.
Qed.

Lemma dca_spends_one_tranche_per_month_witness :
  exists final,
    dca_loop sample_df (3 # 1000)%Q 10000%Q = inr final /\
    (cash_spent final ==
     inject_Z (Z.of_nat (Nat.min 12 (months_in_window sample_df))) * (10000 / 12))%Q.
Proof.
  exact (@dca_spends_one_tranche_per_month sample_df (3 # 1000)%Q 10000%Q
           eq_refl sample_df_dates_distinct).
Defined.

(** ** The guide's future return (lines 34-35) *)

Lemma combine_nth_error {A B} (l1 : list A) (l2 : list B) :
  forall i,
    nth_error (combine l1 l2) i =
    match nth_error l1 i, nth_error l2 i with
    | Some a, Some b => Some (a, b)
    | _, _ => None
    end.
Proof.
  revert l2. induction l1 as [|a l1 IH]; intros [|b l2] [|i]; simpl;
    try reflexivity.
  - destruct (nth_error l1 i); reflexivity.
  - apply IH.
Qed.

Section History_facts.
Context {num : Type} {Ar : Arith num}.

Lemma shift_back_length (k : nat) (s : list (option num)) :
  length (shift_back k s) = length s.
Proof. unfold shift_back. rewrite length_app, length_skipn, repeat_length. lia. Qed.

Lemma shift_back_nth_inside (k : nat) (s : list (option num)) (i : nat) :
  (i + k < length s)%nat -> nth_error (shift_back k s) i = nth_error s (i + k).
Proof.
  intros H. unfold shift_back.
  rewrite nth_error_app1 by (rewrite length_skipn; lia).
  rewrite nth_error_skipn. f_equal. lia.
Qed.

Lemma shift_back_nth_tail (k : nat) (s : list (option num)) (i : nat) :
  (i < length s)%nat -> (length s <= i + k)%nat ->
  nth_error (shift_back k s) i = Some None.
Proof.
  intros Hi Hk. unfold shift_back.
  rewrite nth_error_app2 by (rewrite length_skipn; lia).
  rewrite length_skipn. apply nth_error_repeat. lia.
Qed.

Lemma shift_forward_nth_head (k : nat) (s : list (option num)) (i : nat) :
  (i < length s)%nat -> (i < k)%nat ->
  nth_error (shift_forward k s) i = Some None.
Proof.
  intros Hi Hk. unfold shift_forward.
  rewrite nth_error_app1 by (rewrite repeat_length; lia).
  apply nth_error_repeat. lia.
Qed.

Lemma shift_forward_nth_inside (k : nat) (s : list (option num)) (i : nat) :
  (i < length s)%nat -> (k <= i)%nat ->
  nth_error (shift_forward k s) i = nth_error s (i - k).
Proof.
  intros Hi Hk. unfold shift_forward.
  rewrite nth_error_app2 by (rewrite repeat_length; lia).
  rewrite repeat_length, nth_error_firstn.
  replace (i - Nat.min k (length s))%nat with (i - k)%nat by lia.
  destruct (Nat.ltb_spec (i - k) (length s - k)); [reflexivity|lia].
Qed.

Lemma ffill_from_nth_valid (s : list (option num)) :
  forall last i x,
    nth_error s i = Some x -> isna x = false ->
    nth_error (ffill_from last s) i = Some x.
Proof.
  induction s as [|a s IH]; intros last [|i] x Hx Hv; simpl in *; try discriminate.
  - injection Hx as ->. rewrite Hv. reflexivity.
  - destruct (isna a); simpl; apply IH; assumption.
Qed.

Lemma ffill_from_nth_all_missing (s : list (option num)) :
  forall last i,
    (forall m, (m <= i)%nat -> exists y, nth_error s m = Some y /\ isna y = true) ->
    nth_error (ffill_from last s) i = Some last.
Proof.
  induction s as [|a s IH]; intros last i H.
  - destruct (H 0%nat ltac:(lia)) as (y & Hy & _). discriminate.
  - destruct (H 0%nat ltac:(lia)) as (y & Hy & Hna).
    simpl in Hy. injection Hy as ->. cbn [ffill_from]. rewrite Hna.
    destruct i as [|i]; [reflexivity|]. simpl.
    apply IH. intros m Hm. apply (H (S m)). lia.
Qed.

(** A valid value is carried over the missing rows that follow it. *)
Lemma ffill_from_nth_carry (s : list (option num)) :
  forall last j i x,
    (j <= i)%nat ->
    nth_error s j = Some x -> isna x = false ->
    (forall m, (j < m <= i)%nat -> exists y, nth_error s m = Some y /\ isna y = true) ->
    nth_error (ffill_from last s) i = Some x.
Proof.
  induction s as [|a s IH]; intros last j i x Hji Hx Hv Hmiss.
  - destruct j; discriminate.
  - destruct j as [|j].
    + simpl in Hx. injection Hx as ->. cbn [ffill_from]. rewrite Hv.
      destruct i as [|i]; [reflexivity|]. simpl.
      apply ffill_from_nth_all_missing.
      intros m Hm. apply (Hmiss (S m)). lia.
    + destruct i as [|i]; [lia|]. simpl in Hx.
      cbn [ffill_from]. destruct (isna a); simpl;
        apply (IH _ j i x); try assumption; try lia;
        intros m Hm; apply (Hmiss (S m)); lia.
Qed.

(** The column [data] that [pct_change] divides: at a row whose guide price
    [lag_days] later exists, it holds that price, filled or not. *)
Lemma Guide_Future_data_nth (pad : bool) (guide : list num) (k i : nat) (x : num) :
  isnan x = false ->
  nth_error guide (i + k) = Some x ->
  nth_error (if pad then ffill (Guide_Future guide k) else Guide_Future guide k) i
  = Some (Some x).
Proof.
  intros Hx Hi.
  assert (Hlt : (i + k < length (map Some guide))%nat).
  { rewrite length_map. apply nth_error_Some. rewrite Hi. discriminate. }
  assert (H : nth_error (Guide_Future guide k) i = Some (Some x)).
  { unfold Guide_Future. rewrite shift_back_nth_inside by exact Hlt.
    rewrite nth_error_map, Hi. reflexivity. }
  destruct pad; [|exact H].
  unfold ffill. apply ffill_from_nth_valid; [exact H|exact Hx].
Qed.

Lemma Guide_Future_data_length (pad : bool) (guide : list num) (k : nat) :
  length (if pad then ffill (Guide_Future guide k) else Guide_Future guide k)
  = length guide.
Proof.
  destruct pad; unfold ffill, Guide_Future;
    rewrite ?ffill_from_length, shift_back_length, length_map; reflexivity.
Qed.

Lemma pct_change_periods_nth (pad : bool) (k : nat) (s : list (option num)) (i : nat) :
  nth_error (pct_change_periods pad k s) i =
  match nth_error (if pad then ffill s else s) i,
        nth_error (shift_forward k (if pad then ffill s else s)) i with
  | Some a, Some b =>
      Some (match a, b with
            | Some x, Some y => Some (sub (div x y) one)
            | _, _ => None
            end)
  | _, _ => None
  end.
Proof.
  unfold pct_change_periods. cbv zeta.
  rewrite nth_error_map, combine_nth_error.
  destruct (nth_error (if pad then ffill s else s) i);
    destruct (nth_error (shift_forward k (if pad then ffill s else s)) i);
    reflexivity.
Qed.

Lemma Guide_Return_Future_col_length (pad : bool) (guide : list num) (k : nat) :
  length (Guide_Return_Future_col pad guide k) = length guide.
Proof.
  unfold Guide_Return_Future_col, pct_change_periods. cbv zeta.
  rewrite length_map, length_combine, shift_forward_length,
    Guide_Future_data_length. lia.
Qed.

Lemma Guide_Return_Future_col_inside (pad : bool) (guide : list num)
    (k d : nat) (x y : num) :
  Forall (fun v => isnan v = false) guide ->
  (k <= d)%nat ->
  nth_error guide d = Some y ->
  nth_error guide (d + k) = Some x ->
  nth_error (Guide_Return_Future_col pad guide k) d = Some (Some (sub (div x y) one)).
Proof.
  intros Hvalid Hk Hy Hx.
  assert (Vx : isnan x = false)
    by (rewrite Forall_forall in Hvalid; apply Hvalid; eapply nth_error_In; eassumption).
  assert (Vy : isnan y = false)
    by (rewrite Forall_forall in Hvalid; apply Hvalid; eapply nth_error_In; eassumption).
  assert (Hd : (d < length guide)%nat)
    by (apply nth_error_Some; rewrite Hy; discriminate).
  unfold Guide_Return_Future_col. rewrite pct_change_periods_nth.
  rewrite (Guide_Future_data_nth pad guide k d Vx Hx).
  rewrite shift_forward_nth_inside
    by (rewrite ?Guide_Future_data_length; assumption).
  rewrite (@Guide_Future_data_nth pad guide k (d - k) y Vy)
    by (replace (d - k + k)%nat with d by lia; exact Hy).
  reflexivity.
Qed.

Lemma Guide_Return_Future_col_head (pad : bool) (guide : list num) (k d : nat) :
  (d < k)%nat -> (d < length guide)%nat ->
  nth_error (Guide_Return_Future_col pad guide k) d = Some None.
Proof.
  intros Hk Hd.
  unfold Guide_Return_Future_col. rewrite pct_change_periods_nth.
  rewrite shift_forward_nth_head
    by (rewrite ?Guide_Future_data_length; assumption).
  destruct (nth_error _ d) as [a|] eqn:E.
  - destruct a; reflexivity.
  - apply nth_error_None in E. rewrite Guide_Future_data_length in E. lia.
Qed.

Lemma Guide_Return_Future_col_tail_unfilled (guide : list num) (k d : nat) :
  (d < length guide)%nat -> (length guide <= d + k)%nat ->
  nth_error (Guide_Return_Future_col false guide k) d = Some None.
Proof.
  intros Hd Hk.
  unfold Guide_Return_Future_col. rewrite pct_change_periods_nth.
  unfold Guide_Future at 1.
  rewrite shift_back_nth_tail by (rewrite length_map; assumption).
  destruct (nth_error _ d) as [b|] eqn:E; [reflexivity|].
  apply nth_error_None in E.
  rewrite shift_forward_length, (Guide_Future_data_length false) in E. lia.
Qed.
Lemma Guide_Return_Future_col_tail_filled (guide : list num) (k d : nat) (x y : num) :
  Forall (fun v => isnan v = false) guide ->
  (k <= d)%nat -> (length guide <= d + k)%nat ->
  nth_error guide d = Some y ->
  nth_error guide (length guide - 1) = Some x ->
  nth_error (Guide_Return_Future_col true guide k) d = Some (Some (sub (div x y) one)).
Proof.
  intros Hvalid Hk Htail Hy Hx.
  assert (Vx : isnan x = false)
    by (rewrite Forall_forall in Hvalid; apply Hvalid; eapply nth_error_In; eassumption).
  assert (Vy : isnan y = false)
    by (rewrite Forall_forall in Hvalid; apply Hvalid; eapply nth_error_In; eassumption).
  assert (Hd : (d < length guide)%nat)
    by (apply nth_error_Some; rewrite Hy; discriminate).
  unfold Guide_Return_Future_col. rewrite pct_change_periods_nth.
  rewrite shift_forward_nth_inside
    by (rewrite ?(Guide_Future_data_length true); assumption).
  rewrite (@Guide_Future_data_nth true guide k (d - k) y Vy)
    by (replace (d - k + k)%nat with d by lia; exact Hy).
  assert (Hcarry : nth_error (ffill (Guide_Future guide k)) d = Some (Some x)).
  { unfold ffill.
    apply (@ffill_from_nth_carry _ None (length guide - 1 - k)%nat d (Some x)).
    - lia.
    - unfold Guide_Future. rewrite shift_back_nth_inside by (rewrite length_map; lia).
      rewrite nth_error_map.
      replace (length guide - 1 - k + k)%nat with (length guide - 1)%nat by lia.
      rewrite Hx. reflexivity.
    - exact Vx.
    - intros m Hm. exists None. split; [|reflexivity].
      unfold Guide_Future. apply shift_back_nth_tail; rewrite length_map; lia. }
  rewrite Hcarry. reflexivity.
Qed.
End History_facts.

(** Lines 34-35 together, in any arithmetic and for either default of
    [pct_change], on a guide column without NaN: the column has one entry per
    row; it is undefined on the first [lag_days] rows; on a row [d >= lag_days]
    whose date [lag_days] rows later exists it is
    [guide(d + lag_days) / guide(d) - 1], the guide's return over the next
    [lag_days] rows; on the last [lag_days] rows it is undefined when nothing
    is filled, and [guide(last) / guide(d) - 1] when missing values are filled
    forward. *)
Theorem guide_return_looks_lag_days_ahead :
  forall (num : Type) (Ar : Arith num) (pad : bool) (guide : list num) (lag_days : nat),
    Forall (fun v => isnan v = false) guide ->
    length (Guide_Return_Future_col pad guide lag_days) = length guide /\
    (forall d, (d < lag_days)%nat -> (d < length guide)%nat ->
       nth_error (Guide_Return_Future_col pad guide lag_days) d = Some None) /\
    (forall d x y, (lag_days <= d)%nat ->
       nth_error guide d = Some y -> nth_error guide (d + lag_days) = Some x ->
       nth_error (Guide_Return_Future_col pad guide lag_days) d
       = Some (Some (sub (div x y) one))) /\
    (forall d x y, (lag_days <= d)%nat -> (length guide <= d + lag_days)%nat ->
       nth_error guide d = Some y -> nth_error guide (length guide - 1) = Some x ->
       nth_error (Guide_Return_Future_col pad guide lag_days) d
       = Some (if pad then Some (sub (div x y) one) else None)).
Proof.
  intros num Ar pad guide k Hvalid.
  split; [apply Guide_Return_Future_col_length|].
  split; [intros d Hk Hd; apply Guide_Return_Future_col_head; assumption|].
  split.
  - intros d x y Hk Hy Hx. apply Guide_Return_Future_col_inside; assumption.
  - intros d x y Hk Htail Hy Hx. destruct pad.
    + apply Guide_Return_Future_col_tail_filled; assumption.
    + apply Guide_Return_Future_col_tail_unfilled; [|assumption].
      apply nth_error_Some. rewrite Hy. discriminate.
Qed.

Lemma guide_return_looks_lag_days_ahead_witness :
  length (Guide_Return_Future_col true [10; 11; 12; 13; 14]%Q 2) = 5%nat /\
  nth_error (Guide_Return_Future_col true [10; 11; 12; 13; 14]%Q 2) 2
  = Some (Some (14 / 12 - 1)%Q).
Proof.
  assert (H : Forall (fun v : Q => isnan v = false) [10; 11; 12; 13; 14]%Q)
    by (repeat constructor).
  destruct (@guide_return_looks_lag_days_ahead Q exact true
              [10; 11; 12; 13; 14]%Q 2 H) as (Hlen & _ & Hin & _).
  split; [exact Hlen|].
  apply (Hin 2%nat 14%Q 12%Q); [lia|reflexivity|reflexivity].
Defined.

(** ** The signal on the full history *)

Lemma df_raw_nth {num} {Ar : Arith num} (pad : bool) (index : list Date)
    (target_close guide_close : list num) (corr : list (option num)) (lag_days d : nat)
    (dt : Date) (t : num) (g c : option num) :
  nth_error index d = Some dt ->
  nth_error target_close d = Some t ->
  nth_error (Guide_Return_Future_col pad guide_close lag_days) d = Some g ->
  nth_error corr d = Some c ->
  nth_error (df_raw pad index target_close guide_close corr lag_days) d
  = Some (mkRow dt t g c).
Proof.
  intros Hd Ht Hg Hc. unfold df_raw.
  rewrite nth_error_map, !combine_nth_error, Hd, Ht, Hg, Hc. reflexivity.
Qed.

(** On a row [d >= lag_days] of the history whose date [lag_days] rows later
    exists, with a positive guide price, the signal is 1 exactly when the
    guide closes higher [lag_days] rows later than on row [d] and the
    correlation of row [d] is defined and above 0.2 (exact arithmetic, either
    default of [pct_change]): the position of a day is decided with a price
    of a later day. *)
Theorem signal_reads_later_guide_price :
  forall (pad : bool) (index : list Date) (target_close guide_close : list Q)
         (corr : list (option Q)) (lag_days d : nat)
         (dt : Date) (t y x : Q) (c : option Q),
    nth_error index d = Some dt ->
    nth_error target_close d = Some t ->
    nth_error corr d = Some c ->
    (lag_days <= d)%nat ->
    nth_error guide_close d = Some y ->
    nth_error guide_close (d + lag_days) = Some x ->
    (0 < y)%Q ->
    exists p,
      nth_error (Position (df_raw pad index target_close guide_close corr lag_days)) d
        = Some p /\
      (p = 0 \/ p = 1) /\
      (p = 1 <-> (y < x)%Q /\ exists c0, c = Some c0 /\ (0.2 < c0)%Q).
Proof.
  intros pad index target guide corr k d dt t y x c Hd Ht Hc Hk Hy Hx Hpos.
  assert (Hvalid : Forall (fun v : Q => isnan v = false) guide)
    by (apply Forall_forall; intros; reflexivity).
  pose proof (@Guide_Return_Future_col_inside Q exact pad guide k d x y
                Hvalid Hk Hy Hx) as Hg.
  pose proof (df_raw_nth pad index target guide corr k d Hd Ht Hg Hc) as Hrow.
  unfold Position. rewrite nth_error_map, Hrow. cbn [option_map Guide_Return_Future Corr].
  eexists. split; [reflexivity|].
  assert (Hq : (0 < x / y - 1)%Q <-> (y < x)%Q).
  { split; intros H.
    - assert (E : (x == (x / y) * y)%Q) by (field; lra). nra.
    - assert (E : (1 < x / y)%Q) by (apply Qlt_shift_div_l; lra). lra. }
  pose proof (exact_gt_iff (Some (sub (div x y) one)) zero) as Gg.
  pose proof (exact_gt_iff c (lit 0.2%Q)) as Gc.
  destruct (gt (Some (sub (div x y) one)) zero); destruct (gt c (lit 0.2%Q));
    cbn [andb].
  - split; [right; reflexivity|]. split; [|reflexivity]. intros _.
    destruct (proj1 Gg eq_refl) as (g0 & Eg & Lg). injection Eg as <-.
    destruct (proj1 Gc eq_refl) as (c0 & Ec & Lc).
    split; [apply Hq; exact Lg|]. exists c0. auto.
  - split; [left; reflexivity|]. split; [discriminate|].
    intros (_ & c0 & Ec & Lc).
    assert (false = true) by (apply Gc; exists c0; auto). discriminate.
  - split; [left; reflexivity|]. split; [discriminate|].
    intros (Lx & _).
    assert (false = true)
      by (apply Gg; eexists; split; [reflexivity|apply Hq; exact Lx]).
    discriminate.
  - split; [left; reflexivity|]. split; [discriminate|].
    intros (Lx & _).
    assert (false = true)
      by (apply Gg; eexists; split; [reflexivity|apply Hq; exact Lx]).
    discriminate.
Qed.

Lemma signal_reads_later_guide_price_witness :
  exists p,
    nth_error (Position (df_raw true [jan02; jan03; feb01] [100; 110; 121]%Q
                                [10; 11; 12]%Q [None; Some 0.3%Q; Some 0.3%Q] 1)) 1
      = Some p /\
    (p = 0 \/ p = 1) /\
    (p = 1 <-> (11 < 12)%Q /\ exists c0, Some 0.3%Q = Some c0 /\ (0.2 < c0)%Q).
Proof.
  apply (@signal_reads_later_guide_price true [jan02; jan03; feb01]
           [100; 110; 121]%Q [10; 11; 12]%Q [None; Some 0.3%Q; Some 0.3%Q]
           1 1 jan03 110%Q 11%Q 12%Q (Some 0.3%Q));
    reflexivity.
Defined.


(** ** The window of line 41 *)

Lemma in_2024_year (d : Date) : in_2024 d = true -> year d = 2024.
Proof.
  unfold in_2024, Date_leb. cbn [year month day].
  rewrite !andb_true_iff, !orb_true_iff, !andb_true_iff, !orb_true_iff,
    !andb_true_iff.
  rewrite !Z.ltb_lt, !Z.eqb_eq, !Z.leb_le. lia.
Qed.

Lemma calendar_2024_in_window (d : Date) :
  calendar_date d -> year d = 2024 -> in_2024 d = true.
Proof.
  unfold calendar_date, in_2024, Date_leb. cbn [year month day].
  intros [Hm Hd] Hy.
  rewrite !andb_true_iff, !orb_true_iff, !andb_true_iff, !orb_true_iff,
    !andb_true_iff.
  rewrite !Z.ltb_lt, !Z.eqb_eq, !Z.leb_le. lia.
Qed.

Lemma window_dates_distinct {num} (df : list (Row num)) :
  NoDup (map (@date num) df) -> NoDup (map (@date num) (loc_2024 df)).
Proof.
  unfold loc_2024. induction df as [|r df IH]; intros Hnd; [exact Hnd|].
  cbn [map] in Hnd. apply NoDup_cons_iff in Hnd. destruct Hnd as [Hfresh Hrest].
  cbn [filter]. destruct (in_2024 (date r)); [|exact (IH Hrest)].
  cbn [map]. apply NoDup_cons_iff. split; [|exact (IH Hrest)].
  rewrite in_map_iff. intros (r' & Hdate & Hkept).
  apply Hfresh. rewrite in_map_iff. exists r'.
  split; [exact Hdate|]. apply filter_In in Hkept. apply Hkept.
Qed.

Lemma Position_of_window {num} {Ar : Arith num} (df : list (Row num)) :
  Position (loc_2024 df) =
  map snd (filter (fun rp => in_2024 (date (fst rp))) (combine df (Position df))).
Proof.
  unfold loc_2024, Position.
  induction df as [|r df IH]; [reflexivity|].
  cbn [filter map combine fst]. destruct (in_2024 (date r)); cbn [map snd].
  - f_equal. exact IH.
  - exact IH.
Qed.

(** The window keeps exactly the calendar dates of year 2024 and nothing of
    another year; rows of the window with the same month number are therefore
    rows of the same calendar month, which is what the date test of line 72
    relies on; distinct dates stay distinct, and the signal of the window is
    the signal of the kept rows. *)
Theorem window_is_the_year_2024 :
  forall (num : Type) (Ar : Arith num) (df : list (Row num)),
    (forall r, In r (loc_2024 df) -> In r df /\ year (date r) = 2024) /\
    (forall r, In r df -> calendar_date (date r) -> year (date r) = 2024 ->
               In r (loc_2024 df)) /\
    (forall r1 r2, In r1 (loc_2024 df) -> In r2 (loc_2024 df) ->
                   month (date r1) = month (date r2) ->
                   year (date r1) = year (date r2)) /\
    (NoDup (map (@date num) df) -> NoDup (map (@date num) (loc_2024 df))) /\
    Position (loc_2024 df) =
      map snd (filter (fun rp => in_2024 (date (fst rp))) (combine df (Position df))).
Proof.
  intros num Ar df.
  assert (Hin : forall r, In r (loc_2024 df) -> In r df /\ year (date r) = 2024).
  { intros r H. apply filter_In in H. destruct H as [H1 H2].
    split; [exact H1|apply in_2024_year; exact H2]. }
  split; [exact Hin|]. split; [|split; [|split]].
  - intros r Hr Hcal Hy. apply filter_In. split; [exact Hr|].
    apply calendar_2024_in_window; assumption.
  - intros r1 r2 H1 H2 _.
    destruct (Hin r1 H1) as [_ E1]. destruct (Hin r2 H2) as [_ E2]. congruence.
  - apply window_dates_distinct.
  - apply Position_of_window.
Qed.

(** ** Exact arithmetic: the guard of line 72 on calendar months *)

Lemma months_range_length (seen : list Z) :
  NoDup seen -> (forall m, In m seen -> 1 <= m <= 12) -> (length seen <= 12)%nat.
Proof.
  intros Hnd Hr.
  change 12%nat with (length (map Z.of_nat (seq 1 12))).
  apply NoDup_incl_length; [exact Hnd|].
  intros m Hm. apply in_map_iff. exists (Z.to_nat m).
  specialize (Hr m Hm). split; [lia|]. apply in_seq. lia.
Qed.

Lemma count_new_months_bound (l : list Z) :
  forall seen,
    NoDup seen ->
    (forall m, In m seen -> 1 <= m <= 12) ->
    (forall m, In m l -> 1 <= m <= 12) ->
    (count_new_months seen l + length seen <= 12)%nat.
Proof.
  induction l as [|a l IH]; intros seen Hnd Hs Hl; simpl.
  - apply months_range_length; assumption.
  - destruct (existsb (Z.eqb a) seen) eqn:E.
    + apply IH; [assumption|assumption|].
      intros m Hm. apply Hl. right. exact Hm.
    + assert (Hnot : ~ In a seen).
      { intros Hin. apply existsb_eqb_In in Hin. congruence. }
      specialize (IH (a :: seen)). simpl in IH.
      assert (count_new_months (a :: seen) l + S (length seen) <= 12)%nat.
      { apply IH.
        - constructor; assumption.
        - intros m [<-|Hm]; [apply Hl; left; reflexivity|apply Hs; exact Hm].
        - intros m Hm. apply Hl. right. exact Hm. }
      lia.
Qed.

(** On a window of calendar dates with distinct dates and a positive initial
    capital, a window shows at most twelve month numbers, so the guard
    [cash_spent < initial_cap] never refuses a purchase: the cash spent at
    the end is exactly one tranche per month shown (exact arithmetic), and
    what is left un-spent is [initial_cap] times the share of the twelve
    months the window does not show. *)
Theorem dca_guard_never_refuses_a_calendar_month :
  forall (df : list (Row Q)) (fee cap0 : Q),
    (0 < cap0)%Q ->
    NoDup (map (@date Q) df) ->
    Forall (fun r => calendar_date (date r)) df ->
    exists final,
      dca_loop df fee cap0 = inr final /\
      (months_in_window df <= 12)%nat /\
      (cash_spent final == inject_Z (Z.of_nat (months_in_window df)) * (cap0 / 12))%Q.
Proof.
  intros df fee cap0 Hc Hnd Hcal.
  assert (Hle : (months_in_window df <= 12)%nat).
  { unfold months_in_window.
    pose proof (@count_new_months_bound (map (fun r => month (date r)) df) []
                  (NoDup_nil _)) as H.
    simpl in H. rewrite Nat.add_0_r in H. apply H.
    - intros m [].
    - intros m Hm. apply in_map_iff in Hm. destruct Hm as (r & <- & Hr).
      rewrite Forall_forall in Hcal. apply (Hcal r Hr). }
  destruct (@dca_run_defined _ _ df fee cap0 (length df) (Nat.le_refl _))
    as (final & Hfinal & _).
  exists final. split; [rewrite dca_loop_run; exact Hfinal|]. split; [exact Hle|].
  pose proof (@dca_cash_counts_months df fee cap0 Hc Hnd (length df) final
                (Nat.le_refl _) Hfinal) as H.
  rewrite firstn_all in H.
  replace (Nat.min 12 (months_in_window df)) with (months_in_window df) in H by lia.
  exact H.
Qed.

Lemma dca_guard_never_refuses_a_calendar_month_witness :
  exists final,
    dca_loop sample_df (3 # 1000)%Q 10000%Q = inr final /\
    (months_in_window sample_df <= 12)%nat /\
    (cash_spent final
     == inject_Z (Z.of_nat (months_in_window sample_df)) * (10000 / 12))%Q.
Proof.
  apply (@dca_guard_never_refuses_a_calendar_month sample_df (3 # 1000)%Q 10000%Q).
  - reflexivity.
  - exact sample_df_dates_distinct.
  - repeat constructor; simpl; lia.
Defined.

(** ** Exact arithmetic: the fee can only lower the DCA curve *)

Lemma dca_run_next {num} {Ar : Arith num} (df : list (Row num)) (fee cap0 : num)
    (k : nat) (row : Row num) (st : dca_state) (b : bool) :
  nth_error df k = Some row ->
  first_of_month df (date row) = inr b ->
  dca_run k df fee cap0 = inr st ->
  dca_run (S k) df fee cap0 = inr (dca_next df fee cap0 st row b).
Proof.
  intros Hrow Hfirst Hrun.
  rewrite (@dca_run_S _ _ df fee cap0 k row Hrow), Hrun. cbn [bind].
  apply dca_step_next. exact Hfirst.
Qed.

Lemma dca_runs_under_two_fees (df : list (Row Q)) (f1 f2 cap0 : Q) :
  (0 <= cap0)%Q -> (f1 <= f2)%Q ->
  positive_prices (map (@target Q) df) ->
  forall k st1 st2, (k <= length df)%nat ->
    dca_run k df f1 cap0 = inr st1 ->
    dca_run k df f2 cap0 = inr st2 ->
    cash_spent st1 = cash_spent st2 /\ (shares st2 <= shares st1)%Q.
Proof.
  intros Hc Hf Hpos. induction k as [|k IH]; intros st1 st2 Hk H1 H2.
  - injection H1 as <-. injection H2 as <-. split; [reflexivity|].
    unfold dca_init. cbn [shares]. lra.
  - destruct (@dca_run_defined _ _ df f1 cap0 k) as (s1 & R1 & _); [lia|].
    destruct (@dca_run_defined _ _ df f2 cap0 k) as (s2 & R2 & _); [lia|].
    destruct (IH s1 s2 ltac:(lia) R1 R2) as [Ecash Hsh].
    destruct (nth_error df k) as [row|] eqn:Hrow;
      [|apply nth_error_None in Hrow; lia].
    destruct (@first_of_month_row _ df row (nth_error_In _ _ Hrow))
      as (r0 & j & Hfirst & _).
    rewrite (@dca_run_next _ _ df f1 cap0 k row s1 _ Hrow Hfirst R1) in H1.
    injection H1 as <-.
    rewrite (@dca_run_next _ _ df f2 cap0 k row s2 _ Hrow Hfirst R2) in H2.
    injection H2 as <-.
    cbn [dca_next shares cash_spent]. rewrite <- Ecash.
    assert (Hp : (0 < target row)%Q).
    { unfold positive_prices in Hpos. rewrite Forall_forall in Hpos.
      apply Hpos. apply in_map. eapply nth_error_In. exact Hrow. }
    destruct (Date_eqb (date row) (date r0) && ltb (cash_spent s1) cap0).
    + split; [reflexivity|]. unfold monthly_budget. exact_arith.
      assert (Ht : (0 <= cap0 / 12)%Q) by (apply Qle_shift_div_l; lra).
      assert (Hm : (cap0 / 12 * (1 - f2) <= cap0 / 12 * (1 - f1))%Q) by nra.
      assert (Hd : (cap0 / 12 * (1 - f2) / target row
                    <= cap0 / 12 * (1 - f1) / target row)%Q).
      { apply Qle_shift_div_l; [exact Hp|].
        setoid_replace (cap0 / 12 * (1 - f2) / target row * target row)%Q
          with (cap0 / 12 * (1 - f2))%Q by (field; lra).
        exact Hm. }
      lra.
    + split; [reflexivity|exact Hsh].
Qed.

(** On a window with distinct dates and positive prices, with a non-negative
    initial capital, a higher fee rate changes nothing to the cash spent and
    never raises the DCA value of any day (exact arithmetic). *)
Theorem dca_curve_antitone_in_fee :
  forall (df : list (Row Q)) (f1 f2 cap0 : Q),
    (0 <= cap0)%Q -> (f1 <= f2)%Q ->
    NoDup (map (@date Q) df) ->
    positive_prices (map (@target Q) df) ->
    exists final1 final2,
      dca_loop df f1 cap0 = inr final1 /\
      dca_loop df f2 cap0 = inr final2 /\
      cash_spent final1 = cash_spent final2 /\
      forall i, (i < length df)%nat ->
        exists d1 d2,
          nth_error (DCA_col final1) i = Some (Some d1) /\
          nth_error (DCA_col final2) i = Some (Some d2) /\
          (d2 <= d1)%Q.
Proof.
  intros df f1 f2 cap0 Hc Hf Hnd Hpos.
  destruct (@dca_run_invariant _ _ df f1 cap0 Hnd (length df) (Nat.le_refl _))
    as (fin1 & R1 & _ & C1).
  destruct (@dca_run_invariant _ _ df f2 cap0 Hnd (length df) (Nat.le_refl _))
    as (fin2 & R2 & _ & C2).
  exists fin1, fin2.
  split; [rewrite dca_loop_run; exact R1|].
  split; [rewrite dca_loop_run; exact R2|].
  split.
  - apply (@dca_runs_under_two_fees df f1 f2 cap0 Hc Hf Hpos (length df));
      [lia|exact R1|exact R2].
  - intros i Hi.
    destruct (nth_error df i) as [row|] eqn:Hrow;
      [|apply nth_error_None in Hrow; lia].
    destruct (@dca_run_defined _ _ df f1 cap0 (S i)) as (s1 & S1 & _); [lia|].
    destruct (@dca_run_defined _ _ df f2 cap0 (S i)) as (s2 & S2 & _); [lia|].
    destruct (@dca_runs_under_two_fees df f1 f2 cap0 Hc Hf Hpos (S i) s1 s2
                ltac:(lia) S1 S2) as [Ecash Hsh].
    do 2 eexists.
    split; [exact (C1 i row s1 Hi Hrow S1)|].
    split; [exact (C2 i row s2 Hi Hrow S2)|].
    assert (Hp : (0 < target row)%Q).
    { unfold positive_prices in Hpos. rewrite Forall_forall in Hpos.
      apply Hpos. apply in_map. eapply nth_error_In. exact Hrow. }
    exact_arith. rewrite Ecash. nra.
Qed.

Lemma dca_curve_antitone_in_fee_witness :
  exists final1 final2,
    dca_loop sample_df (1 # 1000)%Q 10000%Q = inr final1 /\
    dca_loop sample_df (3 # 1000)%Q 10000%Q = inr final2 /\
    cash_spent final1 = cash_spent final2.
Proof.
  destruct (@dca_curve_antitone_in_fee sample_df (1 # 1000)%Q (3 # 1000)%Q 10000%Q)
    as (fin1 & fin2 & H1 & H2 & Hc & _).
  - discriminate.
  - discriminate.
  - exact sample_df_dates_distinct.
  - repeat constructor.
  - exists fin1, fin2. auto.
Defined.

(** ** A NaN close in binary64

    With a NaN close on the second day and a position held throughout, the
    returns and the curve depend on the default of [pct_change]: filling
    forward ([pad]) carries the first close over the gap, so the third day
    earns the return from the first close; without filling the two returns
    around the gap are NaN and become 0. *)
Lemma nan_close_depends_on_fill_default :
  strat_path 3 (rets true [lit 100; PrimFloat.nan; lit 110]) [1; 1; 1]
             (Trade [1; 1; 1]) (lit (3 # 1000)) initial_cap
    = inr [10000; 10000; 11000]%float /\
  strat_path 3 (rets false [lit 100; PrimFloat.nan; lit 110]) [1; 1; 1]
             (Trade [1; 1; 1]) (lit (3 # 1000)) initial_cap
    = inr [10000; 10000; 10000]%float.
Proof. split; vm_compute; reflexivity. Qed.
